(** * Green Cart Logistics: the delivery simulation engine and its endpoint

    A shallow embedding of [backend/routes/simulation.js] together with the
    Mongoose models it reads and writes ([backend/models/*.js]), followed by
    the handlers that create routes and orders, read and delete drivers and
    list the history, and by the guards of the pages that call them.

    Conventions of the embedding.
    - The engine is embedded twice.  First with a JavaScript [Number] as an
      exact rational ([Q]), a value that is [NaN] or [undefined] being
      [None]: this settles what does not depend on how a sum, a product or
      a quotient is rounded (which orders are processed, what is read and
      written, which request is served), and the scenarios whose figures
      are exact in binary.  Then, in [Ieee], with a [Number] as the
      binary64 double JavaScript computes with: this settles the figures
      themselves (the efficiency score, the fuel figures, the on-time
      test at its boundary).
    - An integer of a request or of a message is a [Z]; where its decimal
      rendering or its reading as a double matters, the statement bounds it
      by 2^53.
    - A text is a sequence of code units below 256.
    - [Math.random()] is a stream of numbers read front to back;
      [new Date().toISOString()] is a text handed to the engine.
    - A thrown exception is the left injection of a sum.
    - The MongoDB collections are lists in store order. *)

From Stdlib Require Import ZArith QArith Qround Lqa String Ascii List.
From Stdlib Require Import DecimalString DecimalPos Sorted Lia Floats Uint63.
From stdpp Require Import gmap list strings.

Set Warnings "-inexact-float".

Local Open Scope string_scope.
Local Open Scope Z_scope.

(** ** JavaScript primitives used by the engine *)

Module Js.

(** [Math.floor]. *)
Definition Math_floor (x : Q) : Z := Qfloor x.

(** [Math.round]: the nearest integer, a tie going towards +infinity. *)
Definition Math_round (x : Q) : Z := Qfloor (x + (1 # 2)).

(** [x > y] and [x <= y] on numbers. *)
Definition gt (x y : Q) : bool :=
  match (x ?= y)%Q with Gt => true | _ => false end.

Definition le (x y : Q) : bool := Qle_bool x y.

(** Template-literal rendering of an integer of magnitude below 2^53: its
    decimal digits.  (A larger one is rendered from the double nearest to
    it, with other digits; the statements that read a rendering bound the
    integer.) *)
Definition show (n : Z) : string := NilZero.string_of_int (Z.to_int n).

(** [Number.isSafeInteger]. *)
Definition isSafeInteger (n : Z) : Prop := Z.abs n < 2 ^ 53.

(** Exceptions: [new Error(msg)] and the [TypeError] of a property read on
    [undefined]. *)
Inductive exn : Type :=
| Error (message : string)
| TypeError (message : string).

Definition message (e : exn) : string :=
  match e with Error m => m | TypeError m => m end.

(** The random source: an endless tape of [Math.random()] results. *)
Definition Rng : Type := nat -> Q.

Definition tail (g : Rng) : Rng := fun n => g (S n).

Definition Math_random (g : Rng) : Q * Rng := (g O, tail g).

(** What the language guarantees of [Math.random()]: 0 <= u < 1. *)
Definition unit_interval (g : Rng) : Prop :=
  forall n, (0 <= g n)%Q /\ (g n < 1)%Q.

(** [arr[i]] for a numeric index: [undefined] outside the array. *)
Definition index {A} (arr : list A) (i : Z) : option A :=
  if i <? 0 then None else arr !! Z.to_nat i.

(** [s.split(sep)] for a one-character separator. *)
Fixpoint split_chars (sep : ascii) (cur : string) (s : string) : list string :=
  match s with
  | EmptyString => [cur]
  | String c rest =>
      if Ascii.eqb c sep then cur :: split_chars sep "" rest
      else split_chars sep (cur ++ String c "") rest
  end.

Definition split (sep : ascii) (s : string) : list string :=
  split_chars sep "" s.

Definition digit_value (c : ascii) : option Z :=
  let n := Z.of_nat (nat_of_ascii c) in
  if (48 <=? n) && (n <=? 57) then Some (n - 48) else None.

Fixpoint digits_value (acc : Z) (s : string) : option Z :=
  match s with
  | EmptyString => Some acc
  | String c rest =>
      match digit_value c with
      | Some d => digits_value (10 * acc + d) rest
      | None => None
      end
  end.

(** The code units below 256 that [trim] removes: tab, line feed, vertical
    tab, form feed, carriage return, space and no-break space. *)
Definition isWhiteSpace (c : ascii) : bool :=
  let n := nat_of_ascii c in
  ((9 <=? n) && (n <=? 13) || (n =? 32) || (n =? 160))%nat.

Fixpoint trimStartChars (l : list ascii) : list ascii :=
  match l with
  | c :: rest => if isWhiteSpace c then trimStartChars rest else l
  | [] => []
  end.

(** [s.trim()]. *)
Definition trim (s : string) : string :=
  string_of_list_ascii
    (rev (trimStartChars (rev (trimStartChars (list_ascii_of_string s))))).

(** [Number(s)] on the texts a stored time can hold: the empty text is 0,
    a run of decimal digits is its value, anything else is read as [NaN].
    (JavaScript also accepts signs, fractions, exponents, radix prefixes
    and surrounding blanks; the engine never consults the parsed value.) *)
Definition Number (s : string) : option Q :=
  inject_Z <$> digits_value 0 s.

End Js.

(** ** Regular expressions *)

(** The fragment of regular expressions the time pattern is written in,
    matched by derivatives.  A pattern anchored with [^] and [$] (no flags)
    accepts a text only as a whole, which is what [test] decides. *)
Module Regex.

Inductive re : Type :=
| Void
| Eps
| Range (lo hi : ascii)
| Cat (a b : re)
| Alt (a b : re).

Definition Chr (c : ascii) : re := Range c c.
Definition Opt (r : re) : re := Alt Eps r.

Definition in_range (lo hi c : ascii) : bool :=
  (nat_of_ascii lo <=? nat_of_ascii c)%nat && (nat_of_ascii c <=? nat_of_ascii hi)%nat.

Fixpoint nullable (r : re) : bool :=
  match r with
  | Void => false
  | Eps => true
  | Range _ _ => false
  | Cat a b => nullable a && nullable b
  | Alt a b => nullable a || nullable b
  end.

Fixpoint deriv (c : ascii) (r : re) : re :=
  match r with
  | Void => Void
  | Eps => Void
  | Range lo hi => if in_range lo hi c then Eps else Void
  | Cat a b =>
      if nullable a then Alt (Cat (deriv c a) b) (deriv c b)
      else Cat (deriv c a) b
  | Alt a b => Alt (deriv c a) (deriv c b)
  end.

Fixpoint test (r : re) (s : string) : bool :=
  match s with
  | EmptyString => nullable r
  | String c rest => test (deriv c r) rest
  end.

(** The language of a pattern, for reasoning. *)
Fixpoint lang (r : re) (s : string) : Prop :=
  match r with
  | Void => False
  | Eps => s = ""
  | Range lo hi => exists c, s = String c "" /\ in_range lo hi c = true
  | Cat a b => exists s1 s2, s = s1 ++ s2 /\ lang a s1 /\ lang b s2
  | Alt a b => lang a s \/ lang b s
  end.

End Regex.

(** [/^([0-1]?[0-9]|2[0-3]):[0-5][0-9]$/] *)
Definition timePattern : Regex.re :=
  Regex.Cat
    (Regex.Alt
       (Regex.Cat (Regex.Opt (Regex.Range "0" "1")) (Regex.Range "0" "9"))
       (Regex.Cat (Regex.Chr "2") (Regex.Range "0" "3")))
    (Regex.Cat (Regex.Chr ":")
       (Regex.Cat (Regex.Range "0" "5") (Regex.Range "0" "9"))).

(** [matches(pattern)] of the validators and [match] of the schemas. *)
Definition matches (pattern : Regex.re) (v : string) : bool :=
  Regex.test pattern v.

(** ** The data model ([backend/models]) *)

Inductive TrafficLevel : Type := Low | Medium | High.

Definition is_High (t : TrafficLevel) : bool :=
  match t with High => true | _ => false end.

Module Driver.
Record t : Type := mk {
  _id : N;
  name : string;
  shift_hours : Q;
  past_week_hours : list Q
}.

(** The schema validator of [past_week_hours]. *)
Definition valid_past_week_hours (arr : list Q) : bool :=
  (length arr =? 7)%nat && forallb (fun h => Js.le 0 h && Js.le h 24) arr.

(** [driverSchema]: a name that, trimmed, is not empty and has at most 50
    characters, shift hours 1..24, and the validator above. *)
Definition valid (d : t) : bool :=
  let name := Js.trim (name d) in
  negb (String.eqb name "")
  && (String.length name <=? 50)%nat
  && Js.le 1 (shift_hours d) && Js.le (shift_hours d) 24
  && valid_past_week_hours (past_week_hours d).
End Driver.

Module Route.
Record t : Type := mk {
  route_id : Z;
  distance : Q;
  traffic_level : TrafficLevel;
  base_time : Q
}.

(** [routeSchema]: a positive id, at least 0.1 km and at least 1 minute. *)
Definition valid (r : t) : bool :=
  (1 <=? route_id r) && Js.le (1 # 10) (distance r) && Js.le 1 (base_time r).
End Route.

Module Order.
Record t : Type := mk {
  order_id : Z;
  value_rs : Q;
  route_id : Z;
  delivery_time : string
}.

(** [orderSchema]: positive ids, a value of at least 1 and a delivery time
    that matches the time pattern. *)
Definition valid (o : t) : bool :=
  (1 <=? order_id o) && Js.le 1 (value_rs o) && (1 <=? route_id o)
  && matches timePattern (delivery_time o).
End Order.

Module SimulationResult.
Record Params : Type := mkParams {
  available_drivers : Z;
  start_time : string;
  max_hours_per_day : Z
}.

Record Fuel : Type := mkFuel {
  base_cost : Z;
  surcharge : Z;
  total : Z
}.

Record t : Type := mk {
  total_profit : Z;
  efficiency_score : Q;
  on_time_deliveries : nat;
  late_deliveries : nat;
  fuel_cost_breakdown : Fuel;
  simulation_params : Params;
  timestamp : string
}.

(** The constraints of [simulationResultSchema]: [efficiency_score] lies in
    0..100 and both counters have [min: 0]; [total_profit] and the three
    fuel fields are only [required]. *)
Definition validate (r : t) : bool :=
  Js.le 0 (efficiency_score r) && Js.le (efficiency_score r) 100.
End SimulationResult.

(** The collections behind the four models. *)
Record Store : Type := mkStore {
  Drivers : list Driver.t;
  Routes : list Route.t;
  Orders : list Order.t;
  SimulationResults : list SimulationResult.t
}.

(** Every stored document satisfies its schema, and the [unique] fields are
    unique. *)
Definition wellFormed (db : Store) : bool :=
  forallb Driver.valid (Drivers db)
  && forallb Route.valid (Routes db)
  && forallb Order.valid (Orders db)
  && bool_decide (NoDup (Driver._id <$> Drivers db))
  && bool_decide (NoDup (Route.route_id <$> Routes db))
  && bool_decide (NoDup (Order.order_id <$> Orders db)).

(** [Model.find().limit(n)]: the first [n] documents in store order.  MongoDB
    reads a limit of 0 as no limit and a negative one as its absolute value;
    the endpoint only ever passes [n >= 1]. *)
Definition limit {A} (n : Z) (docs : list A) : list A :=
  if n =? 0 then docs else take (Z.to_nat (Z.abs n)) docs.

(** [Model.countDocuments()]. *)
Definition countDocuments {A} (docs : list A) : Z := Z.of_nat (length docs).

(** ** The simulation engine ([runDeliverySimulation]) *)

(** [timeToMinutes]: [hours * 60 + minutes] of the first two pieces of the
    text split at a colon; a missing piece is [undefined], hence [NaN]. *)
Definition timeToMinutes (timeString : string) : option Q :=
  let parts := Js.Number <$> Js.split ":" timeString in
  match parts with
  | Some hours :: Some minutes :: _ => Some (hours * 60 + minutes)%Q
  | _ => None
  end.

(** The route lookup: a later record overwrites an earlier one with the same
    [route_id]. *)
Definition buildRouteMap (routes : list Route.t) : gmap Z Route.t :=
  foldl (fun m route => <[Route.route_id route := route]> m) ∅ routes.

(** [yesterdayHours]: the last entry of [past_week_hours]. *)
Definition yesterdayHours (driver : Driver.t) : option Q :=
  last (Driver.past_week_hours driver).

(** [yesterdayHours > 8 ? 0.7 : 1.0]; a comparison with [undefined] is
    false. *)
Definition fatigueOf (driver : Driver.t) : Q :=
  match yesterdayHours driver with
  | Some h => if Js.gt h 8 then (7 # 10)%Q else 1%Q
  | None => 1%Q
  end.

(** The [driverFatigue] object, keyed by [_id]. *)
Definition buildDriverFatigue (drivers : list Driver.t) : gmap N Q :=
  foldl (fun m driver => <[Driver._id driver := fatigueOf driver]> m) ∅ drivers.

(** The five accumulators of the loop. *)
Record Totals : Type := mkTotals {
  totalProfit : Q;
  onTimeDeliveries : nat;
  lateDeliveries : nat;
  totalFuelCost : Q;
  totalSurcharge : Q
}.

Definition initialTotals : Totals := mkTotals 0 0 0 0 0.

(** [actualDeliveryMinutes <= baseRouteMinutes + 10]; a [NaN] on the left
    compares false. *)
Definition isOnTime (actualDeliveryMinutes : option Q) (baseRouteMinutes : Q) : bool :=
  match actualDeliveryMinutes with
  | Some actual => Js.le actual (baseRouteMinutes + 10)
  | None => false
  end.

(** The profit after one delivery: bonus or penalty, then value minus fuel. *)
Definition settle (profit : Q) (onTime : bool) (value_rs orderFuelCost : Q) : Q :=
  let profit1 :=
    if onTime
    then (if Js.gt value_rs 1000 then (profit + value_rs * (1 # 10))%Q else profit)
    else (profit - 50)%Q in
  (profit1 + (value_rs - orderFuelCost))%Q.

(** One iteration of [for (const order of orders)]. *)
Definition processOrder (routeMap : gmap Z Route.t) (drivers : list Driver.t)
    (driverFatigue : gmap N Q) (order : Order.t) (st : Totals * Js.Rng)
  : Js.exn + Totals * Js.Rng :=
  let '(acc, g) := st in
  match routeMap !! Order.route_id order with
  | None => inr (acc, g)
  | Some route =>
      let baseFuelCost := (Route.distance route * 5)%Q in
      let surcharge :=
        if is_High (Route.traffic_level route)
        then (Route.distance route * 2)%Q else 0%Q in
      let orderFuelCost := (baseFuelCost + surcharge)%Q in
      let fuel' := (totalFuelCost acc + baseFuelCost)%Q in
      let surcharge' := (totalSurcharge acc + surcharge)%Q in
      let expectedDeliveryMinutes := timeToMinutes (Order.delivery_time order) in
      let baseRouteMinutes := Route.base_time route in
      let '(u, g') := Js.Math_random g in
      let i := Js.Math_floor (u * inject_Z (Z.of_nat (length drivers))) in
      match Js.index drivers i with
      | None => inl (Js.TypeError "Cannot read properties of undefined (reading '_id')")
      | Some randomDriver =>
          let fatigueMultiplier := driverFatigue !! Driver._id randomDriver in
          let actualDeliveryMinutes :=
            (fun m => (baseRouteMinutes / m)%Q) <$> fatigueMultiplier in
          let onTime := isOnTime actualDeliveryMinutes baseRouteMinutes in
          inr (mkTotals
                 (settle (totalProfit acc) onTime (Order.value_rs order) orderFuelCost)
                 (if onTime then S (onTimeDeliveries acc) else onTimeDeliveries acc)
                 (if onTime then lateDeliveries acc else S (lateDeliveries acc))
                 fuel' surcharge',
               g')
      end
  end.

(** The whole loop; an exception leaves it at once. *)
Fixpoint processOrders (routeMap : gmap Z Route.t) (drivers : list Driver.t)
    (driverFatigue : gmap N Q) (orders : list Order.t) (st : Totals * Js.Rng)
  : Js.exn + Totals * Js.Rng :=
  match orders with
  | [] => inr st
  | order :: rest =>
      match processOrder routeMap drivers driverFatigue order st with
      | inl e => inl e
      | inr st' => processOrders routeMap drivers driverFatigue rest st'
      end
  end.

Definition insufficient (have requested : Z) : string :=
  "Only " ++ Js.show have ++ " drivers available, but " ++ Js.show requested
  ++ " requested".

(** The object returned after the loop. *)
Definition summarise (acc : Totals) (params : SimulationResult.Params)
    (now : string) : SimulationResult.t :=
  let totalDeliveries := (onTimeDeliveries acc + lateDeliveries acc)%nat in
  let efficiencyScore :=
    if (0 <? totalDeliveries)%nat
    then (inject_Z (Z.of_nat (onTimeDeliveries acc))
          / inject_Z (Z.of_nat totalDeliveries) * 100)%Q
    else 0%Q in
  SimulationResult.mk
    (Js.Math_round (totalProfit acc))
    (inject_Z (Js.Math_round (efficiencyScore * 10)) / 10)%Q
    (onTimeDeliveries acc)
    (lateDeliveries acc)
    (SimulationResult.mkFuel
       (Js.Math_round (totalFuelCost acc))
       (Js.Math_round (totalSurcharge acc))
       (Js.Math_round (totalFuelCost acc + totalSurcharge acc)))
    params
    now.

Definition runDeliverySimulation (db : Store) (g : Js.Rng) (now : string)
    (params : SimulationResult.Params) : Js.exn + SimulationResult.t :=
  let available_drivers := SimulationResult.available_drivers params in
  let drivers := limit available_drivers (Drivers db) in
  let routes := Routes db in
  let orders := Orders db in
  if Z.of_nat (length drivers) <? available_drivers
  then inl (Js.Error (insufficient (Z.of_nat (length drivers)) available_drivers))
  else
    let routeMap := buildRouteMap routes in
    let driverFatigue := buildDriverFatigue drivers in
    match processOrders routeMap drivers driverFatigue orders (initialTotals, g) with
    | inl e => inl e
    | inr (acc, _) => inr (summarise acc params now)
    end.

(** ** Request validation ([validateSimulation]) *)

(** [isInt({min, max})] on a JSON integer of magnitude below 2^53: its
    rendering is then an integer literal, so only the bounds decide.  (From
    1e21 on the rendering has an exponent and the validator fails; the
    statements that depend on it bound the integer.) *)
Definition isInt (min max : option Z) (v : Z) : bool :=
  match min with Some lo => lo <=? v | None => true end
  && match max with Some hi => v <=? hi | None => true end.

(** One entry of [errors.array()]. *)
Record FieldError : Type := mkFieldError {
  param : string;
  msg : string
}.

Definition check (ok : bool) (field message : string) : list FieldError :=
  if ok then [] else [mkFieldError field message].

(** The three validators, run in order; [validationResult(req)] collects
    what they report. *)
Definition validateSimulation (body : SimulationResult.Params) : list FieldError :=
  check (isInt (Some 1) None (SimulationResult.available_drivers body))
    "available_drivers" "Available drivers must be at least 1"
  ++ check (matches timePattern (SimulationResult.start_time body))
    "start_time" "Start time must be in HH:MM format"
  ++ check (isInt (Some 1) (Some 24) (SimulationResult.max_hours_per_day body))
    "max_hours_per_day" "Max hours per day must be between 1 and 24".

(** ** The endpoint ([POST /api/simulation/run]) *)

(** The JSON bodies the handler sends. *)
Inductive Json : Type :=
| JResult (result : SimulationResult.t)
| JValidation (message : string) (errors : list FieldError)
| JMessage (message : string)
| JFailure (message error : string).

Record Response : Type := mkResponse {
  status : Z;
  json : Json
}.

(** The store operations a request performs, in order. *)
Inductive DbOp : Type :=
| CountDrivers
| FindDrivers (n : Z)
| FindRoutes
| FindOrders
| SaveResult (result : SimulationResult.t).

(** The three reads at the head of [runDeliverySimulation]. *)
Definition engineReads (params : SimulationResult.Params) : list DbOp :=
  [FindDrivers (SimulationResult.available_drivers params); FindRoutes; FindOrders].

Record Outcome : Type := mkOutcome {
  response : Response;
  store : Store;
  ops : list DbOp
}.

(** [new SimulationResult(result).save()]: schema validation, then an append
    to the history collection. *)
Definition save (result : SimulationResult.t) (db : Store) : Js.exn + Store :=
  if SimulationResult.validate result
  then inr (mkStore (Drivers db) (Routes db) (Orders db)
              (SimulationResults db ++ [result]))
  else inl (Js.Error "SimulationResult validation failed").

(** The handler behind the authentication middleware. *)
Definition post_run (db : Store) (g : Js.Rng) (now : string)
    (body : SimulationResult.Params) : Outcome :=
  let errors := validateSimulation body in
  if negb (bool_decide (errors = []))
  then mkOutcome (mkResponse 400 (JValidation "Validation failed" errors)) db []
  else
    let available_drivers := SimulationResult.available_drivers body in
    let start_time := SimulationResult.start_time body in
    let max_hours_per_day := SimulationResult.max_hours_per_day body in
    let driverCount := countDocuments (Drivers db) in
    if driverCount <? available_drivers
    then mkOutcome
           (mkResponse 400 (JMessage (insufficient driverCount available_drivers)))
           db [CountDrivers]
    else
      let params :=
        SimulationResult.mkParams available_drivers start_time max_hours_per_day in
      let failed e reads :=
        mkOutcome (mkResponse 500 (JFailure "Simulation failed" (Js.message e)))
          db (CountDrivers :: reads) in
      match runDeliverySimulation db g now params with
      | inl e => failed e (engineReads params)
      | inr result =>
          match save result db with
          | inl e => failed e (engineReads params)
          | inr db' =>
              mkOutcome (mkResponse 200 (JResult result)) db'
                (CountDrivers :: engineReads params ++ [SaveResult result])
          end
      end.

(** ** Notions the properties are stated with *)

(** The stored route a [route_id] stands for: among several records with one
    id, the last in store order. *)
Definition lookupRoute (routes : list Route.t) (id : Z) : option Route.t :=
  last (filter (fun route => Route.route_id route = id) routes).

(** An order is resolvable when some stored route carries its [route_id]. *)
Definition resolvable (db : Store) (order : Order.t) : Prop :=
  Order.route_id order ∈ Route.route_id <$> Routes db.

#[global] Instance resolvable_dec db order : Decision (resolvable db order).
Proof. unfold resolvable. apply _. Defined.

(** The store with another order collection. *)
Definition withOrders (db : Store) (orders : list Order.t) : Store :=
  mkStore (Drivers db) (Routes db) orders (SimulationResults db).

(** The routes of the orders the loop does not skip, in order. *)
Definition processedRoutes (db : Store) : list Route.t :=
  omap (fun order => lookupRoute (Routes db) (Order.route_id order)) (Orders db).

Definition Qsum (l : list Q) : Q := foldr Qplus 0%Q l.

(** A number that is an integer. *)
Definition integral (x : Q) : Prop := exists z : Z, (x == inject_Z z)%Q.

(** Rounding to one decimal, ties upward. *)
Definition round1 (x : Q) : Q := (inject_Z (Qfloor (x * 10 + (1 # 2))) / 10)%Q.

(** The fatigue multiplier as the specification words it. *)
Definition fatigueMultiplier (driver : Driver.t) : Q :=
  match last (Driver.past_week_hours driver) with
  | Some h => if Qlt_le_dec 8 h then (7 # 10)%Q else 1%Q
  | None => 1%Q
  end.

(** The driver a draw [u] of the random source selects. *)
Definition picked (drivers : list Driver.t) (u : Q) : option Driver.t :=
  Js.index drivers (Js.Math_floor (u * inject_Z (Z.of_nat (length drivers)))).

(** The KPI fields of a result, without the echoed parameters and the
    timestamp. *)
Definition kpi (r : SimulationResult.t)
  : Z * Q * nat * nat * SimulationResult.Fuel :=
  (SimulationResult.total_profit r, SimulationResult.efficiency_score r,
   SimulationResult.on_time_deliveries r, SimulationResult.late_deliveries r,
   SimulationResult.fuel_cost_breakdown r).

(** Two orders that differ at most in [delivery_time]. *)
Definition sameButDeliveryTime (o o' : Order.t) : Prop :=
  Order.order_id o = Order.order_id o'
  /\ Order.value_rs o = Order.value_rs o'
  /\ Order.route_id o = Order.route_id o'.

(** A decimal digit and the two-digit rendering of a number below 100. *)
Definition digit (n : nat) : ascii := ascii_of_nat (48 + n).

Definition two_digits (n : nat) : string :=
  String (digit (n / 10)) (String (digit (n mod 10)) "").

(** [HH:MM] with hours 00-23 and minutes 00-59. *)
Definition HH_MM (s : string) : Prop :=
  exists h m : nat, (h <= 23)%nat /\ (m <= 59)%nat
    /\ s = two_digits h ++ ":" ++ two_digits m.

(** [H:MM]: a single-digit hour 0-9 and minutes 00-59. *)
Definition H_MM (s : string) : Prop :=
  exists h m : nat, (h <= 9)%nat /\ (m <= 59)%nat
    /\ s = String (digit h) "" ++ ":" ++ two_digits m.

(** The request was turned down by validation: status 400 with a non-empty
    list of field errors. *)
Definition validationFailure (o : Outcome) : Prop :=
  exists errors, errors <> []
    /\ response o = mkResponse 400 (JValidation "Validation failed" errors).

(** ** Concrete data for the scenarios *)

Definition restedDriver : Driver.t :=
  Driver.mk 1%N "Test Driver 1" 8 [8; 8; 8; 8; 8; 6; 5]%Q.

Definition tiredDriver : Driver.t :=
  Driver.mk 2%N "Test Driver 2" 10 [10; 9; 8; 8; 9; 7; 9]%Q.

Definition route1 : Route.t := Route.mk 1 5 Low 30.

Definition order1 (value_rs : Q) : Order.t := Order.mk 1 value_rs 1 "01:00".

Definition scenario (drivers : list Driver.t) (value_rs : Q) : Store :=
  mkStore drivers [route1] [order1 value_rs] [].

Definition request (n : Z) : SimulationResult.Params :=
  SimulationResult.mkParams n "09:00" 8.

(** A random source that always returns the same number. *)
Definition always (u : Q) : Js.Rng := fun _ => u.

(** An order that points at no stored route. *)
Definition danglingOrder : Order.t := Order.mk 2 700 9 "02:00".

(** A third order, on the stored route. *)
Definition laterOrder : Order.t := Order.mk 3 1500 1 "01:30".

(** A High-traffic route of 0.75 km. *)
Definition fractionalStore : Store :=
  mkStore [restedDriver] [Route.mk 1 (3 # 4) High 30] [order1 500] [].

(** The two-driver scenario with another [delivery_time]. *)
Definition rescheduled : Store :=
  mkStore [restedDriver; tiredDriver] [route1] [Order.mk 1 500 1 "23:59"] [].

(** One fatigued driver, a 10 km route and an order worth 1. *)
Definition lossMaking : Store :=
  mkStore [tiredDriver] [Route.mk 1 10 Low 30] [order1 1] [].

(** * Further code of the repository *)

(** ** The model virtuals *)

Module Virtual.

(** [Driver.totalHoursLastWeek]: [reduce((sum, hours) => sum + hours, 0)]. *)
Definition totalHoursLastWeek (d : Driver.t) : Q :=
  foldl Qplus 0%Q (Driver.past_week_hours d).

(** [Driver.averageHoursPerDay]. *)
Definition averageHoursPerDay (d : Driver.t) : Q :=
  (totalHoursLastWeek d / 7)%Q.

(** [Order.isHighValue]. *)
Definition isHighValue (o : Order.t) : bool := Js.gt (Order.value_rs o) 1000.

(** [Route.fuelCost]. *)
Record FuelCost : Type := mkFuelCost {
  base : Q;
  surcharge : Q;
  total : Q
}.

Definition fuelCost (r : Route.t) : FuelCost :=
  let baseCost := (Route.distance r * 5)%Q in
  let surcharge :=
    if is_High (Route.traffic_level r) then (Route.distance r * 2)%Q else 0%Q in
  mkFuelCost baseCost surcharge (baseCost + surcharge)%Q.

End Virtual.

(** ** [minutesToTime] *)

(** [s.padStart(targetLength, c)] for a one-character filler. *)
Definition padStart (targetLength : nat) (c : ascii) (s : string) : string :=
  string_of_list_ascii (replicate (targetLength - String.length s) c) ++ s.

(** [minutesToTime] on a whole number of minutes of magnitude below 2^53,
    where the double quotient [minutes / 60] rounds down to the integer
    quotient: [Math.floor(minutes / 60)] rounds down and [%] takes the sign
    of the dividend. *)
Definition minutesToTime (minutes : Z) : string :=
  let hours := minutes / 60 in
  let mins := Z.rem minutes 60 in
  padStart 2 "0" (Js.show hours) ++ ":" ++ padStart 2 "0" (Js.show mins).

(** ** The history listing ([GET /api/simulation/history]) *)

(** [req.query] with its two fields as integers, absent fields taking the
    defaults of the destructuring. *)
Record HistoryQuery : Type := mkHistoryQuery {
  query_limit : option Z;
  query_page : option Z
}.

(** [sort({ timestamp: -1 })]: newest first, the timestamp texts compared as
    ISO texts compare.  Documents with one timestamp stay in store order
    here; the store promises no order among them. *)
Fixpoint insertNewest (r : SimulationResult.t) (sorted : list SimulationResult.t)
  : list SimulationResult.t :=
  match sorted with
  | [] => [r]
  | r' :: rest =>
      if String.leb (SimulationResult.timestamp r') (SimulationResult.timestamp r)
      then r :: r' :: rest
      else r' :: insertNewest r rest
  end.

Definition newestFirst (docs : list SimulationResult.t) : list SimulationResult.t :=
  foldr insertNewest [] docs.

(** [cursor.skip(n)]: the store refuses a negative count. *)
Definition skip {A} (n : Z) (docs : list A) : Js.exn + list A :=
  if n <? 0 then inl (Js.Error "Skip value must be non-negative")
  else inr (drop (Z.to_nat n) docs).

Record Pagination : Type := mkPagination {
  current_page : Z;
  total_pages : option Z;
  total_results : Z;
  has_next : bool;
  has_prev : bool
}.

Inductive HistoryResponse : Type :=
| HistoryOk (results : list SimulationResult.t) (pagination : Pagination)
| HistoryError (status : Z) (message : string).

(** The handler.  [Math.ceil(total / limit)] is not finite for a limit of 0
    and is then sent as [null]. *)
Definition get_history (db : Store) (query : HistoryQuery) : HistoryResponse :=
  let limit_ := default 10 (query_limit query) in
  let page := default 1 (query_page query) in
  let skip_ := (page - 1) * limit_ in
  match skip skip_ (newestFirst (SimulationResults db)) with
  | inl _ => HistoryError 500 "Server error while fetching simulation history"
  | inr rest =>
      let results := limit limit_ rest in
      let total := countDocuments (SimulationResults db) in
      HistoryOk results
        (mkPagination page
           (if limit_ =? 0 then None
            else Some (Qceiling (inject_Z total / inject_Z limit_)))
           total
           (skip_ + Z.of_nat (length results) <? total)
           (1 <? page))
  end.

(** ** Creating routes and orders ([POST /api/routes], [POST /api/orders]) *)

(** What a creating handler answers. *)
Inductive Reply (A : Type) : Type :=
| Created (doc : A)
| ValidationFailed (errors : list FieldError)
| Refused (message : string)
| SchemaError (message : string)
| ServerError (message : string).

Arguments Created {A} doc.
Arguments ValidationFailed {A} errors.
Arguments Refused {A} message.
Arguments SchemaError {A} message.
Arguments ServerError {A} message.

Definition replyStatus {A} (r : Reply A) : Z :=
  match r with
  | Created _ => 201
  | ValidationFailed _ | Refused _ | SchemaError _ => 400
  | ServerError _ => 500
  end.

Module RouteBody.
Record t : Type := mk {
  route_id : Z;
  distance : Q;
  traffic_level : string;
  base_time : Z
}.
End RouteBody.

Module OrderBody.
Record t : Type := mk {
  order_id : Z;
  value_rs : Z;
  route_id : Z;
  delivery_time : string
}.
End OrderBody.

(** [isIn(['Low', 'Medium', 'High'])], with the level it names. *)
Definition trafficLevelOf (s : string) : option TrafficLevel :=
  if String.eqb s "Low" then Some Low
  else if String.eqb s "Medium" then Some Medium
  else if String.eqb s "High" then Some High
  else None.

(** [isFloat({ min })] on a JSON number. *)
Definition isFloat (min : Q) (v : Q) : bool := Js.le min v.

Definition validateRoute (body : RouteBody.t) : list FieldError :=
  check (isInt (Some 1) None (RouteBody.route_id body))
    "route_id" "Route ID must be a positive integer"
  ++ check (isFloat (1 # 10) (RouteBody.distance body))
    "distance" "Distance must be at least 0.1 km"
  ++ check (bool_decide (is_Some (trafficLevelOf (RouteBody.traffic_level body))))
    "traffic_level" "Traffic level must be Low, Medium, or High"
  ++ check (isInt (Some 1) None (RouteBody.base_time body))
    "base_time" "Base time must be at least 1 minute".

Definition validateOrder (body : OrderBody.t) : list FieldError :=
  check (isInt (Some 1) None (OrderBody.order_id body))
    "order_id" "Order ID must be a positive integer"
  ++ check (isInt (Some 1) None (OrderBody.value_rs body))
    "value_rs" "Order value must be at least ₹1"
  ++ check (isInt (Some 1) None (OrderBody.route_id body))
    "route_id" "Route ID must be a positive integer"
  ++ check (matches timePattern (OrderBody.delivery_time body))
    "delivery_time" "Delivery time must be in HH:MM format".

(** [Route.findOne({ route_id })]. *)
Definition findRoute (db : Store) (id : Z) : option Route.t :=
  list_find (fun r => Route.route_id r = id) (Routes db) ≫= (fun p => Some p.2).

(** [Order.findOne({ order_id })]. *)
Definition findOrder (db : Store) (id : Z) : option Order.t :=
  list_find (fun o => Order.order_id o = id) (Orders db) ≫= (fun p => Some p.2).

(** [route.save()]: the schema validators, then the unique index on
    [route_id], then the insert at the end of the collection. *)
Definition saveRoute (route : Route.t) (db : Store) : Reply Route.t * Store :=
  if negb (Route.valid route) then (SchemaError "Validation error", db)
  else if bool_decide (Route.route_id route ∈ Route.route_id <$> Routes db)
  then (ServerError "Server error while creating route", db)
  else (Created route,
        mkStore (Drivers db) (Routes db ++ [route]) (Orders db)
          (SimulationResults db)).

Definition saveOrder (order : Order.t) (db : Store) : Reply Order.t * Store :=
  if negb (Order.valid order) then (SchemaError "Validation error", db)
  else if bool_decide (Order.order_id order ∈ Order.order_id <$> Orders db)
  then (ServerError "Server error while creating order", db)
  else (Created order,
        mkStore (Drivers db) (Routes db) (Orders db ++ [order])
          (SimulationResults db)).

(** The handler of [POST /api/routes]. *)
Definition post_route (db : Store) (body : RouteBody.t) : Reply Route.t * Store :=
  let errors := validateRoute body in
  if negb (bool_decide (errors = [])) then (ValidationFailed errors, db)
  else
    match findRoute db (RouteBody.route_id body) with
    | Some _ => (Refused "Route ID already exists", db)
    | None =>
        match trafficLevelOf (RouteBody.traffic_level body) with
        | None => (SchemaError "Validation error", db)
        | Some level =>
            saveRoute
              (Route.mk (RouteBody.route_id body) (RouteBody.distance body)
                 level (inject_Z (RouteBody.base_time body)))
              db
        end
    end.

(** The handler of [POST /api/orders]. *)
Definition post_order (db : Store) (body : OrderBody.t) : Reply Order.t * Store :=
  let errors := validateOrder body in
  if negb (bool_decide (errors = [])) then (ValidationFailed errors, db)
  else
    match findOrder db (OrderBody.order_id body) with
    | Some _ => (Refused "Order ID already exists", db)
    | None =>
        match findRoute db (OrderBody.route_id body) with
        | None => (Refused "Route does not exist", db)
        | Some _ =>
            saveOrder
              (Order.mk (OrderBody.order_id body)
                 (inject_Z (OrderBody.value_rs body))
                 (OrderBody.route_id body) (OrderBody.delivery_time body))
              db
        end
    end.

(** ** The guard of the simulation form ([handleRunSimulation]) *)


(** ** Notions the further properties are stated with *)

(** The processed orders with their routes, in order. *)
Definition processedOrders (db : Store) : list (Order.t * Route.t) :=
  omap (fun o => (fun r => (o, r)) <$> lookupRoute (Routes db) (Order.route_id o))
    (Orders db).

(** The totals after one delivery with a given verdict. *)
Definition deliver (acc : Totals) (d : Order.t * Route.t * bool) : Totals :=
  let '(o, r, onTime) := d in
  let fuel := Virtual.fuelCost r in
  mkTotals
    (settle (totalProfit acc) onTime (Order.value_rs o)
       (Virtual.base fuel + Virtual.surcharge fuel)%Q)
    (if onTime then S (onTimeDeliveries acc) else onTimeDeliveries acc)
    (if onTime then lateDeliveries acc else S (lateDeliveries acc))
    (totalFuelCost acc + Virtual.base fuel)%Q
    (totalSurcharge acc + Virtual.surcharge fuel)%Q.

(** The bonus an order earns when delivered on time. *)
Definition bonus (o : Order.t) : Q :=
  if Virtual.isHighValue o then (Order.value_rs o * (1 # 10))%Q else 0%Q.

(** A driver whose last recorded day exceeds 8 hours. *)
Definition fatigued (d : Driver.t) : Prop := fatigueMultiplier d = (7 # 10)%Q.

(** The number a decimal numeral denotes after the digits read so far. *)
Fixpoint uint_value (d : Decimal.uint) (acc : Z) : Z :=
  match d with
  | Decimal.Nil => acc
  | Decimal.D0 l => uint_value l (10 * acc)
  | Decimal.D1 l => uint_value l (10 * acc + 1)
  | Decimal.D2 l => uint_value l (10 * acc + 2)
  | Decimal.D3 l => uint_value l (10 * acc + 3)
  | Decimal.D4 l => uint_value l (10 * acc + 4)
  | Decimal.D5 l => uint_value l (10 * acc + 5)
  | Decimal.D6 l => uint_value l (10 * acc + 6)
  | Decimal.D7 l => uint_value l (10 * acc + 7)
  | Decimal.D8 l => uint_value l (10 * acc + 8)
  | Decimal.D9 l => uint_value l (10 * acc + 9)
  end.

(** The minutes of a time text, when it parses to a whole number. *)
Definition minutesOf (s : string) : option Z :=
  match timeToMinutes s with
  | Some (Qmake n 1) => Some n
  | _ => None
  end.

(** The verdicts the selected drivers can give on a processed order. *)
Definition verdictOn (routes : list Route.t) (drivers : list Driver.t)
    (p : Order.t * Route.t) (v : bool) : Prop :=
  p.2 ∈ routes
  /\ exists d, d ∈ drivers
       /\ v = isOnTime (Some (Route.base_time p.2 / fatigueOf d)%Q)
                (Route.base_time p.2).

(** The results a history response carries. *)
Definition pageResults (resp : HistoryResponse) : list SimulationResult.t :=
  match resp with
  | HistoryOk results _ => results
  | HistoryError _ _ => []
  end.

(** The request for one page of a given size. *)
Definition pageQuery (size page : Z) : HistoryQuery :=
  mkHistoryQuery (Some size) (Some page).

(** [a] is at least as new as [b]. *)
Definition notOlder (a b : SimulationResult.t) : Prop :=
  String.leb (SimulationResult.timestamp b) (SimulationResult.timestamp a) = true.

(** What [find().sort({ timestamp: -1 })] may answer to one query: the
    documents, newest first, those with one timestamp in whatever order the
    store gives them that time. *)
Definition sortedNewestFirst (docs answer : list SimulationResult.t) : Prop :=
  answer ≡ₚ docs /\ Sorted notOlder answer.

(** The results of the page cut from an answer of the store: [skip], then
    [limit]. *)
Definition pageOf (size page : Z) (answer : list SimulationResult.t)
  : list SimulationResult.t :=
  match skip ((page - 1) * size) answer with
  | inl _ => []
  | inr rest => limit size rest
  end.

(** ** Reading and deleting a driver ([GET], [DELETE /api/drivers/:id]) *)

(** What the two handlers answer: the document, or a status with a
    message. *)
Inductive DriverReply : Type :=
| DriverDoc (driver : Driver.t)
| DriverMessage (status : Z) (message : string).

(** [req.params.id] as the cast to an ObjectId reads it: on a text that is
    no ObjectId the query throws a [CastError]. *)
Inductive IdParam : Type :=
| NotAnObjectId
| ObjectId (id : N).

(** [Driver.findById(id)] on an ObjectId: position and document. *)
Definition findDriverById (db : Store) (id : N) : option (nat * Driver.t) :=
  list_find (fun d => Driver._id d = id) (Drivers db).

(** The handler of [GET /api/drivers/:id]; the [catch] answers a thrown
    cast error. *)
Definition get_driver (db : Store) (param : IdParam) : DriverReply :=
  match param with
  | NotAnObjectId => DriverMessage 500 "Server error while fetching driver"
  | ObjectId id =>
      match findDriverById db id with
      | None => DriverMessage 404 "Driver not found"
      | Some (_, driver) => DriverDoc driver
      end
  end.

(** The handler of [DELETE /api/drivers/:id]: [Driver.findByIdAndDelete(id)],
    then the answer. *)
Definition delete_driver (db : Store) (param : IdParam) : DriverReply * Store :=
  match param with
  | NotAnObjectId => (DriverMessage 500 "Server error while deleting driver", db)
  | ObjectId id =>
      match findDriverById db id with
      | None => (DriverMessage 404 "Driver not found", db)
      | Some (i, _) =>
          (DriverMessage 200 "Driver deleted successfully",
           mkStore (delete i (Drivers db)) (Routes db) (Orders db)
             (SimulationResults db))
      end
  end.

(** ** The page's copy of the drivers ([deleteDriver] of the data context) *)

(** The state [deleteDriver] sets once its request has been answered:
    [drivers.filter(d => d._id !== id)]. *)
Definition deleteDriver (drivers : list Driver.t) (id : N) : list Driver.t :=
  filter (fun d => Driver._id d <> id) drivers.

(** * The engine on IEEE 754 doubles *)

(** The definitions above compute with exact rationals.  That settles every
    property that does not depend on how a sum, a product or a quotient is
    rounded.  The figures the engine reports do depend on it, so the engine
    is embedded a second time, operation for operation, on the binary64
    numbers JavaScript computes with (the kernel's primitive floats: every
    operation rounds to nearest, ties to even). *)

Module Ieee.

(** The integer a signed mantissa stands for. *)
Definition signed (s : bool) (m : positive) : Z :=
  if s then Z.neg m else Z.pos m.


(** The double of an integer; exact for magnitudes up to 2^53, which covers
    every array length and every counter. *)
Definition of_Z (z : Z) : float :=
  if z <? 0 then (- PrimFloat.of_uint63 (Uint63.of_Z (- z)))%float
  else PrimFloat.of_uint63 (Uint63.of_Z z).

Definition of_nat (n : nat) : float := of_Z (Z.of_nat n).

(** [Math.floor] of a finite double, as the integer it denotes. *)
Definition floor (x : float) : option Z :=
  match Prim2SF x with
  | S754_zero _ => Some 0
  | S754_finite s m e =>
      Some (if 0 <=? e then signed s m * 2 ^ e else signed s m / 2 ^ (- e))
  | _ => None
  end.

(** [Math.round]: the integer nearest to the exact value, a tie going
    towards +infinity; [NaN], the infinities and the zeros are returned as
    they are, and a result of zero keeps the sign of the argument. *)
Definition Math_round (x : float) : float :=
  match Prim2SF x with
  | S754_finite s m e =>
      if 0 <=? e then x
      else
        let k := (2 * signed s m + 2 ^ (- e)) / 2 ^ (1 - e) in
        if k =? 0 then (if s then (-0)%float else 0%float) else of_Z k
  | _ => x
  end.

(** [x > y] and [x <= y]: false as soon as one side is [NaN]. *)
Definition gt (x y : float) : bool := PrimFloat.ltb y x.
Definition le (x y : float) : bool := PrimFloat.leb x y.

(** The random source: an endless tape of [Math.random()] results. *)
Definition Rng : Type := nat -> float.

Definition tail (g : Rng) : Rng := fun n => g (S n).

Definition Math_random (g : Rng) : float * Rng := (g O, tail g).

(** [arr[Math.floor(u * arr.length)]]; [undefined] when the index is [NaN],
    infinite or outside the array. *)
Definition pick {A} (arr : list A) (u : float) : option A :=
  floor (u * of_nat (length arr))%float ≫= Js.index arr.

Module Driver.
Record t : Type := mk {
  _id : N;
  name : string;
  shift_hours : float;
  past_week_hours : list float
}.
End Driver.

Module Route.
Record t : Type := mk {
  route_id : Z;
  distance : float;
  traffic_level : TrafficLevel;
  base_time : float
}.
End Route.

Module Order.
Record t : Type := mk {
  order_id : Z;
  value_rs : float;
  route_id : Z;
  delivery_time : string
}.
End Order.

Module SimulationResult.
Record Fuel : Type := mkFuel {
  base_cost : float;
  surcharge : float;
  total : float
}.

Record t : Type := mk {
  total_profit : float;
  efficiency_score : float;
  on_time_deliveries : nat;
  late_deliveries : nat;
  fuel_cost_breakdown : Fuel;
  simulation_params : SimulationResult.Params;
  timestamp : string
}.
End SimulationResult.

(** The three collections the engine reads. *)
Record Store : Type := mkStore {
  Drivers : list Driver.t;
  Routes : list Route.t;
  Orders : list Order.t
}.

Definition buildRouteMap (routes : list Route.t) : gmap Z Route.t :=
  foldl (fun m route => <[Route.route_id route := route]> m) ∅ routes.

Definition yesterdayHours (driver : Driver.t) : option float :=
  last (Driver.past_week_hours driver).

(** [yesterdayHours > 8 ? 0.7 : 1.0]. *)
Definition fatigueOf (driver : Driver.t) : float :=
  match yesterdayHours driver with
  | Some h => if gt h 8 then 0.7%float else 1%float
  | None => 1%float
  end.

Definition buildDriverFatigue (drivers : list Driver.t) : gmap N float :=
  foldl (fun m driver => <[Driver._id driver := fatigueOf driver]> m) ∅ drivers.

Record Totals : Type := mkTotals {
  totalProfit : float;
  onTimeDeliveries : nat;
  lateDeliveries : nat;
  totalFuelCost : float;
  totalSurcharge : float
}.

Definition initialTotals : Totals := mkTotals 0 0 0 0 0.

(** [route.distance * 5]. *)
Definition baseFuelCost (route : Route.t) : float :=
  (Route.distance route * 5)%float.

(** [route.traffic_level === 'High' ? route.distance * 2 : 0]. *)
Definition surchargeOf (route : Route.t) : float :=
  if is_High (Route.traffic_level route)
  then (Route.distance route * 2)%float else 0%float.

(** [baseRouteMinutes / fatigueMultiplier <= baseRouteMinutes + 10]; a
    multiplier that is [undefined] makes the quotient [NaN]. *)
Definition isOnTime (fatigueMultiplier : option float) (baseRouteMinutes : float)
  : bool :=
  let actualDeliveryMinutes :=
    match fatigueMultiplier with
    | Some m => (baseRouteMinutes / m)%float
    | None => PrimFloat.nan
    end in
  le actualDeliveryMinutes (baseRouteMinutes + 10)%float.

(** The profit after one delivery: bonus or penalty, then value minus fuel. *)
Definition settle (profit : float) (onTime : bool) (value_rs orderFuelCost : float)
  : float :=
  let profit1 :=
    if onTime
    then (if gt value_rs 1000 then (profit + value_rs * 0.1)%float else profit)
    else (profit - 50)%float in
  (profit1 + (value_rs - orderFuelCost))%float.

(** One iteration of [for (const order of orders)].  As above, the parsed
    delivery time is computed and never read. *)
Definition processOrder (routeMap : gmap Z Route.t) (drivers : list Driver.t)
    (driverFatigue : gmap N float) (order : Order.t) (st : Totals * Rng)
  : Js.exn + Totals * Rng :=
  let '(acc, g) := st in
  match routeMap !! Order.route_id order with
  | None => inr (acc, g)
  | Some route =>
      let orderFuelCost := (baseFuelCost route + surchargeOf route)%float in
      let fuel' := (totalFuelCost acc + baseFuelCost route)%float in
      let surcharge' := (totalSurcharge acc + surchargeOf route)%float in
      let expectedDeliveryMinutes := timeToMinutes (Order.delivery_time order) in
      let baseRouteMinutes := Route.base_time route in
      let '(u, g') := Math_random g in
      match pick drivers u with
      | None => inl (Js.TypeError "Cannot read properties of undefined (reading '_id')")
      | Some randomDriver =>
          let fatigueMultiplier := driverFatigue !! Driver._id randomDriver in
          let onTime := isOnTime fatigueMultiplier baseRouteMinutes in
          inr (mkTotals
                 (settle (totalProfit acc) onTime (Order.value_rs order) orderFuelCost)
                 (if onTime then S (onTimeDeliveries acc) else onTimeDeliveries acc)
                 (if onTime then lateDeliveries acc else S (lateDeliveries acc))
                 fuel' surcharge',
               g')
      end
  end.

Fixpoint processOrders (routeMap : gmap Z Route.t) (drivers : list Driver.t)
    (driverFatigue : gmap N float) (orders : list Order.t) (st : Totals * Rng)
  : Js.exn + Totals * Rng :=
  match orders with
  | [] => inr st
  | order :: rest =>
      match processOrder routeMap drivers driverFatigue order st with
      | inl e => inl e
      | inr st' => processOrders routeMap drivers driverFatigue rest st'
      end
  end.

(** [totalDeliveries > 0 ? (onTimeDeliveries / totalDeliveries) * 100 : 0],
    then [Math.round(efficiencyScore * 10) / 10]. *)
Definition efficiencyScore (onTimeDeliveries lateDeliveries : nat) : float :=
  let totalDeliveries := (onTimeDeliveries + lateDeliveries)%nat in
  if (0 <? totalDeliveries)%nat
  then (of_nat onTimeDeliveries / of_nat totalDeliveries * 100)%float
  else 0%float.

Definition round1 (x : float) : float := (Math_round (x * 10) / 10)%float.

Definition summarise (acc : Totals) (params : SimulationResult.Params)
    (now : string) : SimulationResult.t :=
  SimulationResult.mk
    (Math_round (totalProfit acc))
    (round1 (efficiencyScore (onTimeDeliveries acc) (lateDeliveries acc)))
    (onTimeDeliveries acc)
    (lateDeliveries acc)
    (SimulationResult.mkFuel
       (Math_round (totalFuelCost acc))
       (Math_round (totalSurcharge acc))
       (Math_round (totalFuelCost acc + totalSurcharge acc)))
    params
    now.

Definition runDeliverySimulation (db : Store) (g : Rng) (now : string)
    (params : SimulationResult.Params) : Js.exn + SimulationResult.t :=
  let available_drivers := SimulationResult.available_drivers params in
  let drivers := limit available_drivers (Drivers db) in
  if Z.of_nat (length drivers) <? available_drivers
  then inl (Js.Error (insufficient (Z.of_nat (length drivers)) available_drivers))
  else
    match processOrders (buildRouteMap (Routes db)) drivers
            (buildDriverFatigue drivers) (Orders db) (initialTotals, g) with
    | inl e => inl e
    | inr (acc, _) => inr (summarise acc params now)
    end.

(** *** Notions the properties of this engine are stated with *)

(** The stored route a [route_id] stands for: the last one in store order. *)
Definition lookupRoute (routes : list Route.t) (id : Z) : option Route.t :=
  last (filter (fun route => Route.route_id route = id) routes).

Definition resolvable (db : Store) (order : Order.t) : Prop :=
  Order.route_id order ∈ Route.route_id <$> Routes db.

#[global] Instance resolvable_dec db order : Decision (resolvable db order).
Proof. unfold resolvable. apply _. Defined.

(** The routes of the orders the loop does not skip, in order. *)
Definition processedRoutes (db : Store) : list Route.t :=
  omap (fun order => lookupRoute (Routes db) (Order.route_id order)) (Orders db).

(** Every draw of the tape selects one of the drivers.  [Math.random()]
    returns a double in [0, 1), and for such a draw the index is in range. *)
Definition selects (drivers : list Driver.t) (g : Rng) : Prop :=
  forall n, is_Some (pick drivers (g n)).


(** The integer [Math.round(efficiencyScore * 10)] returns. *)
Definition efficiencyTenths (onTimeDeliveries lateDeliveries : nat) : option Z :=
  floor (Math_round (efficiencyScore onTimeDeliveries lateDeliveries * 10)%float).

(** A driver whose last recorded day exceeds 8 hours. *)
Definition fatigued (driver : Driver.t) : Prop :=
  exists h, yesterdayHours driver = Some h /\ gt h 8 = true.



(** *** Concrete data for the scenarios *)

Definition restedDriver : Driver.t :=
  Driver.mk 1%N "Test Driver 1" 8 [8; 8; 8; 8; 8; 6; 5]%float.

Definition tiredDriver : Driver.t :=
  Driver.mk 2%N "Test Driver 2" 10 [10; 9; 8; 8; 9; 7; 9]%float.

Definition route1 : Route.t := Route.mk 1 5 Low 30.

Definition always (u : float) : Rng := fun _ => u.

(** Eighty orders on [route1], a rested and a fatigued driver, and a tape
    whose first 23 draws select the rested one. *)
Definition eightyOrders : Store :=
  mkStore [restedDriver; tiredDriver] [route1]
    ((fun k => Order.mk (Z.of_nat k) 500 1 "10:00") <$> seq 1 80).

Definition first23 : Rng :=
  fun n => if (n <? 23)%nat then 0%float else 0.5%float.

(** One order on a High-traffic route of 0.75 km. *)
Definition fractionalStore : Store :=
  mkStore [restedDriver] [Route.mk 1 0.75 High 30] [Order.mk 1 500 1 "01:00"].


End Ieee.


(** [on / total * 100] rounded to one decimal, ties upward, in tenths. *)
Definition percentTenths (on total : nat) : Z :=
  Js.Math_round
    (inject_Z (Z.of_nat on) / inject_Z (Z.of_nat total) * 100 * 10)%Q.

(** The percentage lies exactly halfway between two tenths. *)
Definition halfway (on total : nat) : Prop :=
  (2000 * Z.of_nat on) mod (2 * Z.of_nat total) = Z.of_nat total.

(** The tenths the code rounds to are those of the exact percentage, or one
    less when the percentage is exactly halfway. *)
Definition efficiencyAccurate (on late : nat) : Prop :=
  exists k,
    Ieee.efficiencyTenths on late = Some k
    /\ (k = percentTenths on (on + late)
        \/ (halfway on (on + late) /\ k = percentTenths on (on + late) - 1)).

Definition efficiencyChecked (on late : nat) : bool :=
  match Ieee.efficiencyTenths on late with
  | Some k =>
      (k =? percentTenths on (on + late))
      || (((2000 * Z.of_nat on) mod (2 * Z.of_nat (on + late))
           =? Z.of_nat (on + late))
          && (k =? percentTenths on (on + late) - 1))
  | None => false
  end.

(** * Properties *)

(** ** Lookups in the two objects built before the loop *)

Section Lookup.
Context {K : Type} `{Countable K} {A V : Type}.
Variables (key : A -> K) (val : A -> V).

(** A left fold of inserts answers a lookup with the last matching
    element, and with the initial map when none matches. *)
Lemma foldl_insert_lookup (l : list A) (m : gmap K V) (k : K) :
  foldl (fun m x => <[key x := val x]> m) m l !! k
  = match last (filter (fun x => key x = k) l) with
    | Some x => Some (val x)
    | None => m !! k
    end.
Proof.
  revert m. induction l as [|x l IH]; intros m; simpl; [done|].
  rewrite IH, filter_cons. case_decide as Hk.
  - rewrite last_cons. destruct (last _); [done|].
    subst k. apply lookup_insert_eq.
  - destruct (last _); [done|]. by apply lookup_insert_ne.
Qed.
End Lookup.

Lemma buildRouteMap_lookup routes id :
  buildRouteMap routes !! id = lookupRoute routes id.
Proof.
  unfold buildRouteMap, lookupRoute.
  rewrite (foldl_insert_lookup Route.route_id (fun r => r)).
  by destruct (last _).
Qed.

Lemma lookupRoute_None routes id :
  lookupRoute routes id = None <-> id ∉ Route.route_id <$> routes.
Proof.
  unfold lookupRoute. rewrite last_None. split.
  - intros E [r [-> Hr]]%list_elem_of_fmap.
    by eapply (filter_nil_not_elem_of _ _ r) in E.
  - intros Hn. induction routes as [|r routes IH]; [done|].
    rewrite fmap_cons, not_elem_of_cons in Hn. destruct Hn as [Hne Hn].
    rewrite filter_cons_False by done. auto.
Qed.

Lemma lookupRoute_Some routes id route :
  lookupRoute routes id = Some route ->
  Route.route_id route = id /\ route ∈ routes.
Proof.
  unfold lookupRoute. intros Hl%last_Some_elem_of.
  by apply list_elem_of_filter in Hl.
Qed.

(** The multiplier the code stores is the one the specification words. *)
Lemma fatigueOf_spec driver : fatigueOf driver = fatigueMultiplier driver.
Proof.
  unfold fatigueOf, fatigueMultiplier, yesterdayHours, Js.gt.
  destruct (last _) as [h|]; [|done].
  destruct (Qlt_le_dec 8 h) as [Hlt|Hle].
  - apply Qgt_alt in Hlt. by rewrite Hlt.
  - destruct (h ?= 8)%Q eqn:E; [done|done|].
    apply Qgt_alt in E. exfalso. eapply Qlt_not_le; eauto.
Qed.

Lemma fatigueMultiplier_cases driver :
  fatigueMultiplier driver = 1%Q \/ fatigueMultiplier driver = (7 # 10)%Q.
Proof.
  unfold fatigueMultiplier. destruct (last _); [|by left].
  destruct (Qlt_le_dec _ _); auto.
Qed.

(** ** The random pick *)

Lemma unit_interval_tail g : Js.unit_interval g -> Js.unit_interval (Js.tail g).
Proof. intros Hg n. apply Hg. Qed.

Lemma unit_interval_always u :
  (0 <= u)%Q -> (u < 1)%Q -> Js.unit_interval (always u).
Proof. intros H0 H1 n. by split. Qed.

(** Discharges [Js.unit_interval (always u)] for a literal [u]. *)
Ltac constant_source :=
  apply unit_interval_always; [discriminate | reflexivity].

(** A draw from the unit interval selects a driver of a non-empty list. *)
Lemma picked_Some drivers u :
  (0 <= u)%Q -> (u < 1)%Q -> drivers <> [] ->
  exists driver, picked drivers u = Some driver /\ driver ∈ drivers.
Proof.
  intros H0 H1 Hne. unfold picked, Js.index, Js.Math_floor.
  set (n := Z.of_nat (length drivers)).
  assert (0 < n) as Hn by (destruct drivers; [done|simpl in n; lia]).
  assert (0 <= Qfloor (u * inject_Z n)) as Hlo.
  { rewrite <- (Qfloor_Z 0). apply Qfloor_resp_le.
    apply Qmult_le_0_compat; [done|].
    change 0%Q with (inject_Z 0). rewrite <- Zle_Qle. lia. }
  assert (Qfloor (u * inject_Z n) < n) as Hhi.
  { rewrite Zlt_Qlt. eapply Qle_lt_trans; [apply Qfloor_le|].
    rewrite <- (Qmult_1_l (inject_Z n)) at 2.
    apply Qmult_lt_compat_r; [|done].
    change 0%Q with (inject_Z 0). rewrite <- Zlt_Qlt. lia. }
  destruct (Z.ltb_spec (Qfloor (u * inject_Z n)) 0) as [|_]; [lia|].
  destruct (lookup_lt_is_Some_2 drivers (Z.to_nat (Qfloor (u * inject_Z n))))
    as [d Hd]; [subst n; lia|].
  exists d. split; [done|]. apply list_elem_of_lookup. eauto.
Qed.

Lemma picked_elem_of drivers u driver :
  picked drivers u = Some driver -> driver ∈ drivers.
Proof.
  unfold picked, Js.index. destruct (_ <? 0); [done|].
  intros Hp. apply list_elem_of_lookup. eauto.
Qed.

(** ** The loop *)

Lemma processOrder_skip routeMap drivers fatigue order st :
  routeMap !! Order.route_id order = None ->
  processOrder routeMap drivers fatigue order st = inr st.
Proof. intros E. unfold processOrder. destruct st. by rewrite E. Qed.

(** One iteration on an order whose route is stored and whose draw selects a
    driver. *)
Lemma processOrder_resolved routeMap drivers fatigue order acc g route driver :
  routeMap !! Order.route_id order = Some route ->
  picked drivers (g O) = Some driver ->
  processOrder routeMap drivers fatigue order (acc, g)
  = let surcharge :=
      if is_High (Route.traffic_level route)
      then (Route.distance route * 2)%Q else 0%Q in
    let onTime :=
      isOnTime
        ((fun m => (Route.base_time route / m)%Q) <$> fatigue !! Driver._id driver)
        (Route.base_time route) in
    inr (mkTotals
           (settle (totalProfit acc) onTime (Order.value_rs order)
              (Route.distance route * 5 + surcharge)%Q)
           (if onTime then S (onTimeDeliveries acc) else onTimeDeliveries acc)
           (if onTime then lateDeliveries acc else S (lateDeliveries acc))
           (totalFuelCost acc + Route.distance route * 5)%Q
           (totalSurcharge acc + surcharge)%Q,
         Js.tail g).
Proof.
  intros Hr Hp. unfold processOrder, Js.Math_random. rewrite Hr.
  unfold picked in Hp. cbv beta iota zeta. by rewrite Hp.
Qed.

Lemma processOrders_app routeMap drivers fatigue l1 l2 st :
  processOrders routeMap drivers fatigue (l1 ++ l2)%list st
  = match processOrders routeMap drivers fatigue l1 st with
    | inl e => inl e
    | inr st' => processOrders routeMap drivers fatigue l2 st'
    end.
Proof.
  revert st. induction l1 as [|o l1 IH]; intros st; simpl; [done|].
  destruct (processOrder _ _ _ o st); [done|]. apply IH.
Qed.

(** With a proper random source and at least one selected driver the loop
    runs to its end. *)
Lemma processOrders_returns routeMap drivers fatigue orders acc g :
  Js.unit_interval g -> drivers <> [] ->
  exists acc' g',
    processOrders routeMap drivers fatigue orders (acc, g) = inr (acc', g').
Proof.
  intros Hg Hne. revert acc g Hg.
  induction orders as [|o orders IH]; intros acc g Hg; cbn [processOrders];
    [eauto|].
  destruct (routeMap !! Order.route_id o) as [route|] eqn:Hr.
  - destruct (picked_Some drivers (g O)) as (d & Hd & _); [apply Hg..|done|].
    rewrite (processOrder_resolved _ _ _ _ _ _ _ _ Hr Hd). cbv zeta.
    apply IH, unit_interval_tail, Hg.
  - rewrite processOrder_skip by done. by apply IH.
Qed.

Lemma Qsum_cons x l : Qsum (x :: l) = (x + Qsum l)%Q.
Proof. reflexivity. Qed.

(** What the loop has accumulated when it returns: one delivery per
    processed order, the base fuel of each, and the surcharge of those on
    High-traffic routes. *)
Lemma processOrders_totals routeMap drivers fatigue orders acc g acc' g' :
  processOrders routeMap drivers fatigue orders (acc, g) = inr (acc', g') ->
  let processed := omap (fun o => routeMap !! Order.route_id o) orders in
  (onTimeDeliveries acc' + lateDeliveries acc'
   = onTimeDeliveries acc + lateDeliveries acc + length processed)%nat
  /\ (totalFuelCost acc'
      == totalFuelCost acc
         + Qsum ((fun route => Route.distance route * 5) <$> processed))%Q
  /\ (totalSurcharge acc'
      == totalSurcharge acc
         + Qsum ((fun route => Route.distance route * 2)
                   <$> filter (fun route => is_High (Route.traffic_level route))
                         processed))%Q.
Proof.
  revert acc g. induction orders as [|o orders IH]; intros acc g;
    cbn [processOrders omap list_omap].
  - intros [= <- <-]. simpl. split; [lia|]. split; ring.
  - destruct (routeMap !! Order.route_id o) as [route|] eqn:Hr.
    + unfold processOrder at 1, Js.Math_random. rewrite Hr. cbv beta iota zeta.
      destruct (Js.index drivers _) as [d|]; [|done].
      intros Hrest. apply IH in Hrest. simpl in Hrest.
      destruct Hrest as (Hn & Hf & Hs). rewrite Hf, Hs.
      split; [revert Hn; destruct (isOnTime _ _); simpl; lia|].
      destruct (is_High (Route.traffic_level route)) eqn:Eh.
      * rewrite filter_cons_True by (by rewrite Eh).
        rewrite !fmap_cons, !Qsum_cons. split; ring.
      * rewrite filter_cons_False by (rewrite Eh; intros []).
        rewrite !fmap_cons, !Qsum_cons. split; ring.
    + rewrite processOrder_skip by done. apply IH.
Qed.

Lemma processedRoutes_map db :
  omap (fun o => buildRouteMap (Routes db) !! Order.route_id o) (Orders db)
  = processedRoutes db.
Proof.
  unfold processedRoutes. induction (Orders db) as [|o orders IH]; [done|].
  cbn [omap list_omap]. by rewrite IH, buildRouteMap_lookup.
Qed.

(** Orders that differ in [delivery_time] only take the same step. *)
Lemma processOrder_sameButDeliveryTime routeMap drivers fatigue o o' st :
  sameButDeliveryTime o o' ->
  processOrder routeMap drivers fatigue o st
  = processOrder routeMap drivers fatigue o' st.
Proof.
  intros (_ & Hv & Hr). unfold processOrder. destruct st as [acc g].
  rewrite Hr, Hv. reflexivity.
Qed.

Lemma processOrders_sameButDeliveryTime routeMap drivers fatigue orders orders' st :
  Forall2 sameButDeliveryTime orders orders' ->
  processOrders routeMap drivers fatigue orders st
  = processOrders routeMap drivers fatigue orders' st.
Proof.
  intros Hf. revert st. induction Hf as [|o o' l l' Ho _ IH]; intros st; [done|].
  cbn [processOrders].
  rewrite (processOrder_sameButDeliveryTime _ _ _ o o') by done.
  destruct (processOrder _ _ _ o' st); [done|apply IH].
Qed.

(** ** Rounding *)

Lemma Math_round_comp x y : (x == y)%Q -> Js.Math_round x = Js.Math_round y.
Proof. intros E. unfold Js.Math_round. apply Qfloor_comp. by rewrite E. Qed.

Lemma Math_round_bounds x :
  (inject_Z (Js.Math_round x) <= x + (1 # 2))%Q
  /\ (x + (1 # 2) < inject_Z (Js.Math_round x) + 1)%Q.
Proof.
  unfold Js.Math_round. split; [apply Qfloor_le|].
  pose proof (Qlt_floor (x + (1 # 2))) as H.
  rewrite inject_Z_plus in H. exact H.
Qed.

Lemma Math_round_Z z : Js.Math_round (inject_Z z) = z.
Proof.
  pose proof (Math_round_bounds (inject_Z z)) as [Hlo Hhi].
  set (k := Js.Math_round (inject_Z z)) in *.
  assert (inject_Z k < inject_Z (z + 1))%Q as H1
    by (rewrite inject_Z_plus; change (inject_Z 1) with 1%Q; lra).
  assert (inject_Z z < inject_Z (k + 1))%Q as H2
    by (rewrite inject_Z_plus; change (inject_Z 1) with 1%Q; lra).
  rewrite <- Zlt_Qlt in H1, H2. lia.
Qed.

(** ** The on-time test *)

Lemma isOnTime_Some actual base :
  isOnTime (Some actual) base = true <-> (actual <= base + 10)%Q.
Proof. unfold isOnTime, Js.le. apply Qle_bool_iff. Qed.

Lemma on_time_rested base : (base / 1 <= base + 10)%Q.
Proof. assert (base / 1 == base)%Q as -> by field. lra. Qed.

Lemma on_time_tired base :
  ~ (base / (7 # 10) <= base + 10)%Q <-> (70 # 3 < base)%Q.
Proof.
  assert (base / (7 # 10) == base * (10 # 7))%Q as -> by field.
  split; intros H; lra.
Qed.

(** ** The engine's guard *)


Lemma length_limit {A} n (docs : list A) :
  1 <= n <= countDocuments docs -> length (limit n docs) = Z.to_nat n.
Proof.
  unfold limit, countDocuments. intros Hn.
  destruct (Z.eqb_spec n 0); [lia|]. rewrite length_take. lia.
Qed.

(** ** The time pattern *)

Module RegexFacts.
Import Regex.

Lemma append_nil (s1 s2 : string) : s1 ++ s2 = "" -> s1 = "" /\ s2 = "".
Proof. destruct s1; simpl; [done|discriminate]. Qed.

Lemma append_cons c (s s1 s2 : string) :
  String c s = s1 ++ s2 ->
  (s1 = "" /\ s2 = String c s)
  \/ (exists s1', s1 = String c s1' /\ s = s1' ++ s2).
Proof.
  destruct s1 as [|c1 s1]; simpl; intros E; [by left|].
  injection E as <- ->. right. eauto.
Qed.

Lemma nullable_lang r : nullable r = true <-> lang r "".
Proof.
  induction r as [| |lo hi|a IHa b IHb|a IHa b IHb]; simpl.
  - split; [discriminate|done].
  - done.
  - split; [discriminate|]. by intros (c & E & _).
  - rewrite andb_true_iff, IHa, IHb. split.
    + intros [Ha Hb]. by exists "", "".
    + intros (s1 & s2 & E & Ha & Hb). symmetry in E.
      apply append_nil in E as [-> ->]. done.
  - rewrite orb_true_iff, IHa, IHb. done.
Qed.

(** A non-empty first part of a concatenation gives up its head. *)
Lemma deriv_cat c a b s :
  (forall s, lang (deriv c a) s <-> lang a (String c s)) ->
  lang (Cat (deriv c a) b) s
  <-> exists s1 s2,
        String c s = s1 ++ s2 /\ s1 <> "" /\ lang a s1 /\ lang b s2.
Proof.
  intros IHa. simpl. split.
  - intros (s1 & s2 & -> & Ha & Hb). exists (String c s1), s2.
    split; [done|]. split; [discriminate|]. split; [by apply IHa|done].
  - intros (s1 & s2 & E & Hne & Ha & Hb).
    apply append_cons in E as [[-> _]|(s1' & -> & ->)]; [done|].
    exists s1', s2. split; [done|]. split; [by apply IHa|done].
Qed.

Lemma deriv_lang c r s : lang (deriv c r) s <-> lang r (String c s).
Proof.
  revert s. induction r as [| |lo hi|a IHa b IHb|a IHa b IHb]; intros s; simpl.
  - done.
  - split; [done|discriminate].
  - destruct (in_range lo hi c) eqn:E; simpl.
    + split; [intros ->; eauto|]. intros (c' & [= -> ->] & _). done.
    + split; [done|]. intros (c' & [= -> ->] & E'). congruence.
  - pose proof (deriv_cat c a b s IHa) as Hcat.
    destruct (nullable a) eqn:En.
    + change (lang (Cat (deriv c a) b) s \/ lang (deriv c b) s
              <-> exists s1 s2, String c s = s1 ++ s2 /\ lang a s1 /\ lang b s2).
      rewrite Hcat, IHb. split.
      * intros [(s1 & s2 & E & _ & Ha & Hb)|Hb]; [eauto|].
        exists "", (String c s).
        split; [done|]. split; [by apply nullable_lang|done].
      * intros (s1 & s2 & E & Ha & Hb). destruct s1 as [|c1 s1].
        -- right. change (String c s = s2) in E. by subst s2.
        -- left. exists (String c1 s1), s2.
           split; [done|]. split; [discriminate|done].
    + rewrite Hcat. split.
      * intros (s1 & s2 & E & _ & Ha & Hb). eauto.
      * intros (s1 & s2 & E & Ha & Hb). exists s1, s2.
        split; [done|]. split; [|done]. intros ->.
        apply nullable_lang in Ha. congruence.
  - by rewrite IHa, IHb.
Qed.

(** The matcher decides the language. *)
Lemma test_lang r s : test r s = true <-> lang r s.
Proof.
  revert r. induction s as [|c s IH]; intros r; simpl.
  - apply nullable_lang.
  - rewrite IH. apply deriv_lang.
Qed.
End RegexFacts.

Lemma digit_of_range lo hi c :
  Regex.in_range lo hi c = true ->
  (48 <= nat_of_ascii lo)%nat ->
  exists d, c = digit d
    /\ (nat_of_ascii lo - 48 <= d)%nat /\ (d <= nat_of_ascii hi - 48)%nat.
Proof.
  unfold Regex.in_range. intros [Hlo Hhi]%andb_true_iff H48.
  apply Nat.leb_le in Hlo, Hhi.
  exists (nat_of_ascii c - 48)%nat. split; [|lia].
  unfold digit.
  replace (48 + (nat_of_ascii c - 48))%nat with (nat_of_ascii c) by lia.
  symmetry. apply ascii_nat_embedding.
Qed.

Lemma colon_of_range c : Regex.in_range ":" ":" c = true -> c = ":"%char.
Proof.
  unfold Regex.in_range. intros [Hlo Hhi]%andb_true_iff.
  apply Nat.leb_le in Hlo, Hhi.
  rewrite <- (ascii_nat_embedding c).
  replace (nat_of_ascii c) with (nat_of_ascii ":") by lia. reflexivity.
Qed.

Lemma two_digits_compose d1 d2 :
  (d2 <= 9)%nat ->
  two_digits (10 * d1 + d2) = String (digit d1) (String (digit d2) "").
Proof.
  intros H. unfold two_digits.
  replace ((10 * d1 + d2) / 10)%nat with d1
    by (apply (Nat.div_unique _ 10 d1 d2); lia).
  replace ((10 * d1 + d2) mod 10)%nat with d2
    by (apply (Nat.mod_unique _ 10 d1 d2); lia).
  reflexivity.
Qed.

(** Every rendering of an hour below 24 and a minute below 60 is matched,
    with two hour digits and, below 10, with one: a finite check. *)
Lemma timePattern_accepts_all :
  forallb (fun h =>
    forallb (fun m =>
      Regex.test timePattern (two_digits h ++ ":" ++ two_digits m)
      && (if (h <=? 9)%nat
          then Regex.test timePattern (String (digit h) "" ++ ":" ++ two_digits m)
          else true))
      (seq 0 60))
    (seq 0 24) = true.
Proof. vm_compute. reflexivity. Qed.

Lemma timePattern_accepts h m :
  (h <= 23)%nat -> (m <= 59)%nat ->
  Regex.test timePattern (two_digits h ++ ":" ++ two_digits m) = true
  /\ ((h <= 9)%nat ->
      Regex.test timePattern (String (digit h) "" ++ ":" ++ two_digits m) = true).
Proof.
  intros Hh Hm. pose proof timePattern_accepts_all as Hall.
  rewrite forallb_forall in Hall.
  specialize (Hall h ltac:(apply in_seq; lia)).
  rewrite forallb_forall in Hall.
  specialize (Hall m ltac:(apply in_seq; lia)).
  apply andb_true_iff in Hall as [H1 H2]. split; [done|].
  intros H9. apply Nat.leb_le in H9. by rewrite H9 in H2.
Qed.

(** The texts the time pattern accepts. *)
Lemma timePattern_spec s :
  matches timePattern s = true <-> HH_MM s \/ H_MM s.
Proof.
  unfold matches. split.
  - intros Hl%RegexFacts.test_lang. simpl in Hl.
    destruct Hl as (hh & rest & -> & Hhh & (colon & mm & -> & (cc & -> & Hc)
                    & (m1s & m2s & -> & (m1 & -> & Hm1) & (m2 & -> & Hm2)))).
    apply colon_of_range in Hc as ->.
    apply digit_of_range in Hm1 as (d3 & -> & _ & H3); [|vm_compute; lia].
    apply digit_of_range in Hm2 as (d4 & -> & _ & H4); [|vm_compute; lia].
    vm_compute in H3, H4.
    destruct Hhh as [(h1s & h2s & -> & Hh1 & (h2 & -> & Hh2))
                    |(h1s & h2s & -> & (h1 & -> & Hh1) & (h2 & -> & Hh2))].
    + apply digit_of_range in Hh2 as (d2 & -> & _ & H2); [|vm_compute; lia].
      vm_compute in H2. destruct Hh1 as [->|(h1 & -> & Hh1)].
      * right. exists d2, (10 * d3 + d4)%nat.
        split; [lia|]. split; [lia|]. by rewrite two_digits_compose.
      * apply digit_of_range in Hh1 as (d1 & -> & _ & H1); [|vm_compute; lia].
        vm_compute in H1. left. exists (10 * d1 + d2)%nat, (10 * d3 + d4)%nat.
        split; [lia|]. split; [lia|]. by rewrite !two_digits_compose.
    + apply digit_of_range in Hh1 as (d1 & -> & H1 & H1'); [|vm_compute; lia].
      apply digit_of_range in Hh2 as (d2 & -> & _ & H2); [|vm_compute; lia].
      vm_compute in H1, H1', H2.
      left. exists (10 * d1 + d2)%nat, (10 * d3 + d4)%nat.
      split; [lia|]. split; [lia|]. by rewrite !two_digits_compose by lia.
  - intros [(h & m & Hh & Hm & ->)|(h & m & Hh & Hm & ->)].
    + exact (proj1 (timePattern_accepts h m Hh Hm)).
    + refine (proj2 (timePattern_accepts h m _ Hm) Hh). lia.
Qed.

Lemma not_HH_MM_short s : String.length s <> 5%nat -> ~ HH_MM s.
Proof.
  intros Hlen (h & m & _ & _ & ->). by apply Hlen.
Qed.

(** ** Validation and the handler *)

Lemma isInt_min v : isInt (Some 1) None v = true <-> 1 <= v.
Proof. unfold isInt. rewrite andb_true_r. apply Z.leb_le. Qed.

Lemma isInt_range v : isInt (Some 1) (Some 24) v = true <-> 1 <= v <= 24.
Proof. unfold isInt. rewrite andb_true_iff, !Z.leb_le. done. Qed.

(** Validation reports nothing exactly when the three checks pass. *)
Lemma validateSimulation_nil body :
  validateSimulation body = []
  <-> 1 <= SimulationResult.available_drivers body
      /\ matches timePattern (SimulationResult.start_time body) = true
      /\ 1 <= SimulationResult.max_hours_per_day body <= 24.
Proof.
  rewrite <- isInt_min, <- isInt_range. unfold validateSimulation, check.
  destruct (isInt (Some 1) None _), (matches timePattern _),
    (isInt (Some 1) (Some 24) _);
    simpl; split; try done; intros (? & ? & ?); done.
Qed.

Lemma post_run_validationFailure db g now body :
  validationFailure (post_run db g now body) <-> validateSimulation body <> [].
Proof.
  unfold validationFailure, post_run. case_bool_decide as Hv; cbn [negb].
  - split; [|done]. intros (errors & _ & E). exfalso. revert E.
    destruct (_ <? _); [discriminate|].
    destruct (runDeliverySimulation _ _ _ _); [discriminate|].
    destruct (save _ _); discriminate.
  - split; [done|]. intros _. eexists. split; [exact Hv|reflexivity].
Qed.

Lemma post_run_rejected_untouched db g now body :
  validateSimulation body <> [] ->
  store (post_run db g now body) = db /\ ops (post_run db g now body) = [].
Proof. intros Hv. unfold post_run. by rewrite bool_decide_eq_false_2. Qed.

(** ** A served request *)



Lemma params_eta (body : SimulationResult.Params) :
  SimulationResult.mkParams (SimulationResult.available_drivers body)
    (SimulationResult.start_time body) (SimulationResult.max_hours_per_day body)
  = body.
Proof. by destruct body. Qed.


(** ** The engine on doubles *)

Lemma ieee_buildRouteMap_lookup routes id :
  Ieee.buildRouteMap routes !! id = Ieee.lookupRoute routes id.
Proof.
  unfold Ieee.buildRouteMap, Ieee.lookupRoute.
  rewrite (foldl_insert_lookup Ieee.Route.route_id (fun r => r)).
  by destruct (last _).
Qed.

Lemma ieee_lookupRoute_None routes id :
  Ieee.lookupRoute routes id = None <-> id ∉ Ieee.Route.route_id <$> routes.
Proof.
  unfold Ieee.lookupRoute. rewrite last_None. split.
  - intros E [r [-> Hr]]%list_elem_of_fmap.
    by eapply (filter_nil_not_elem_of _ _ r) in E.
  - intros Hn. induction routes as [|r routes IH]; [done|].
    rewrite fmap_cons, not_elem_of_cons in Hn. destruct Hn as [Hne Hn].
    rewrite filter_cons_False by done. auto.
Qed.



Lemma ieee_selects_tail drivers g :
  Ieee.selects drivers g -> Ieee.selects drivers (Ieee.tail g).
Proof. intros Hg n. apply Hg. Qed.

Lemma ieee_processOrder_skip routeMap drivers fatigue order st :
  routeMap !! Ieee.Order.route_id order = None ->
  Ieee.processOrder routeMap drivers fatigue order st = inr st.
Proof. intros E. unfold Ieee.processOrder. destruct st. by rewrite E. Qed.

(** One iteration on an order whose route is stored and whose draw selects a
    driver. *)
Lemma ieee_processOrder_resolved routeMap drivers fatigue order acc g route driver :
  routeMap !! Ieee.Order.route_id order = Some route ->
  Ieee.pick drivers (g O) = Some driver ->
  Ieee.processOrder routeMap drivers fatigue order (acc, g)
  = let onTime :=
      Ieee.isOnTime (fatigue !! Ieee.Driver._id driver)
        (Ieee.Route.base_time route) in
    inr (Ieee.mkTotals
           (Ieee.settle (Ieee.totalProfit acc) onTime (Ieee.Order.value_rs order)
              (Ieee.baseFuelCost route + Ieee.surchargeOf route)%float)
           (if onTime then S (Ieee.onTimeDeliveries acc)
            else Ieee.onTimeDeliveries acc)
           (if onTime then Ieee.lateDeliveries acc
            else S (Ieee.lateDeliveries acc))
           (Ieee.totalFuelCost acc + Ieee.baseFuelCost route)%float
           (Ieee.totalSurcharge acc + Ieee.surchargeOf route)%float,
         Ieee.tail g).
Proof.
  intros Hr Hp. unfold Ieee.processOrder, Ieee.Math_random. rewrite Hr.
  cbv beta iota zeta. by rewrite Hp.
Qed.

(** What the loop has accumulated when it returns: one delivery per
    processed order, and the two running sums over their routes. *)
Lemma ieee_processOrders_totals routeMap drivers fatigue orders acc g acc' g' :
  Ieee.processOrders routeMap drivers fatigue orders (acc, g) = inr (acc', g') ->
  let processed := omap (fun o => routeMap !! Ieee.Order.route_id o) orders in
  (Ieee.onTimeDeliveries acc' + Ieee.lateDeliveries acc'
   = Ieee.onTimeDeliveries acc + Ieee.lateDeliveries acc + length processed)%nat
  /\ Ieee.totalFuelCost acc'
     = foldl (fun total route => (total + Ieee.baseFuelCost route)%float)
         (Ieee.totalFuelCost acc) processed
  /\ Ieee.totalSurcharge acc'
     = foldl (fun total route => (total + Ieee.surchargeOf route)%float)
         (Ieee.totalSurcharge acc) processed.
Proof.
  revert acc g. induction orders as [|o orders IH]; intros acc g;
    cbn [Ieee.processOrders omap list_omap].
  - intros [= <- <-]. simpl. split; [lia|]. by split.
  - destruct (routeMap !! Ieee.Order.route_id o) as [route|] eqn:Hr.
    + unfold Ieee.processOrder at 1, Ieee.Math_random. rewrite Hr.
      cbv beta iota zeta.
      destruct (Ieee.pick drivers (g O)) as [d|]; [|done].
      intros Hrest. apply IH in Hrest as (Hc & Hf & Hs). cbv zeta in *.
      cbn [foldl length]. rewrite Hf, Hs.
      cbn [Ieee.totalFuelCost Ieee.totalSurcharge].
      split; [|done]. rewrite Hc.
      cbn [Ieee.onTimeDeliveries Ieee.lateDeliveries].
      destruct (Ieee.isOnTime _ _); lia.
    + rewrite ieee_processOrder_skip by done. apply IH.
Qed.

Lemma ieee_processedRoutes_map db :
  omap (fun o => Ieee.buildRouteMap (Ieee.Routes db) !! Ieee.Order.route_id o)
    (Ieee.Orders db)
  = Ieee.processedRoutes db.
Proof.
  unfold Ieee.processedRoutes. induction (Ieee.Orders db) as [|o orders IH]; [done|].
  cbn [omap list_omap]. by rewrite IH, ieee_buildRouteMap_lookup.
Qed.

Lemma ieee_length_processedRoutes db :
  length (Ieee.processedRoutes db)
  = length (filter (Ieee.resolvable db) (Ieee.Orders db)).
Proof.
  unfold Ieee.processedRoutes. induction (Ieee.Orders db) as [|o orders IH]; [done|].
  cbn [omap list_omap]. rewrite filter_cons.
  destruct (Ieee.lookupRoute (Ieee.Routes db) (Ieee.Order.route_id o))
    as [route|] eqn:E.
  - rewrite decide_True; [simpl; by rewrite IH|].
    destruct (decide (Ieee.resolvable db o)) as [|Hn]; [done|].
    apply ieee_lookupRoute_None in Hn. congruence.
  - rewrite decide_False; [done|]. by apply ieee_lookupRoute_None.
Qed.

(** When every draw selects a driver the loop runs to its end. *)
Lemma ieee_processOrders_returns routeMap drivers fatigue orders acc g :
  Ieee.selects drivers g ->
  exists acc' g',
    Ieee.processOrders routeMap drivers fatigue orders (acc, g) = inr (acc', g').
Proof.
  intros Hg. revert acc g Hg.
  induction orders as [|o orders IH]; intros acc g Hg; cbn [Ieee.processOrders];
    [eauto|].
  destruct (routeMap !! Ieee.Order.route_id o) as [route|] eqn:Hr.
  - destruct (Hg O) as [d Hd].
    rewrite (ieee_processOrder_resolved _ _ _ _ _ _ _ _ Hr Hd). cbv zeta.
    apply IH, ieee_selects_tail, Hg.
  - rewrite ieee_processOrder_skip by done. by apply IH.
Qed.

(** A run whose draws all select a driver returns the summary of the loop's
    totals. *)
Lemma ieee_run_returns db g now params :
  Ieee.selects (limit (SimulationResult.available_drivers params) (Ieee.Drivers db)) g ->
  1 <= SimulationResult.available_drivers params
    <= countDocuments (Ieee.Drivers db) ->
  exists acc g',
    Ieee.processOrders (Ieee.buildRouteMap (Ieee.Routes db))
      (limit (SimulationResult.available_drivers params) (Ieee.Drivers db))
      (Ieee.buildDriverFatigue
         (limit (SimulationResult.available_drivers params) (Ieee.Drivers db)))
      (Ieee.Orders db) (Ieee.initialTotals, g) = inr (acc, g')
    /\ Ieee.runDeliverySimulation db g now params
       = inr (Ieee.summarise acc params now).
Proof.
  intros Hg Hn. pose proof (length_limit _ _ Hn) as Hlen.
  unfold Ieee.runDeliverySimulation, countDocuments in *.
  set (n := SimulationResult.available_drivers params) in *.
  destruct (Z.ltb_spec (Z.of_nat (length (limit n (Ieee.Drivers db)))) n); [lia|].
  destruct (ieee_processOrders_returns (Ieee.buildRouteMap (Ieee.Routes db))
              (limit n (Ieee.Drivers db))
              (Ieee.buildDriverFatigue (limit n (Ieee.Drivers db)))
              (Ieee.Orders db) Ieee.initialTotals g Hg)
    as (acc & g' & Hrun).
  rewrite Hrun. eauto.
Qed.


(** The efficiency score. *)

Lemma efficiencyChecked_spec on late :
  efficiencyChecked on late = true -> efficiencyAccurate on late.
Proof.
  unfold efficiencyChecked, efficiencyAccurate, halfway.
  destruct (Ieee.efficiencyTenths on late) as [k|]; [|done].
  intros [Hk|[Hh Hk]%andb_true_iff]%orb_true_iff; exists k; (split; [done|]).
  - left. by apply Z.eqb_eq.
  - right. split; by apply Z.eqb_eq.
Qed.

(** Every count of up to 100 deliveries, checked one by one. *)
Lemma efficiencyChecked_100 :
  forallb (fun total =>
             forallb (fun on => efficiencyChecked on (total - on))
               (seq 0 (S total)))
    (seq 1 100) = true.
Proof. vm_compute. reflexivity. Qed.

Lemma efficiency_accuracy on late :
  (0 < on + late <= 100)%nat -> efficiencyAccurate on late.
Proof.
  intros Hn. apply efficiencyChecked_spec.
  pose proof efficiencyChecked_100 as Hall. rewrite forallb_forall in Hall.
  specialize (Hall (on + late)%nat ltac:(apply in_seq; lia)).
  rewrite forallb_forall in Hall.
  specialize (Hall on ltac:(apply in_seq; lia)).
  by replace (on + late - on)%nat with late in Hall by lia.
Qed.

(** Fatigue and the on-time test. *)





(** * The claims *)

(** C1. Skip invariant: an order whose [route_id] no stored route carries
    leaves the run as it is without that order, under the same random source:
    the whole outcome is equal, hence [total_profit], the three fields of
    [fuel_cost_breakdown], [on_time_deliveries] and [late_deliveries]. *)
Theorem skip_invariant db before order after g now params :
  Orders db = (before ++ order :: after)%list ->
  ~ resolvable db order ->
  runDeliverySimulation db g now params
  = runDeliverySimulation (withOrders db (before ++ after)%list) g now params.
Proof.
  intros Ho Hd. unfold runDeliverySimulation. simpl. rewrite Ho.
  destruct (_ <? _); [done|].
  rewrite !processOrders_app. cbn [processOrders].
  destruct (processOrders _ _ _ before _) as [e|st]; [done|].
  rewrite processOrder_skip; [done|].
  rewrite buildRouteMap_lookup. by apply lookupRoute_None.
Qed.

Lemma skip_invariant_witness :
  runDeliverySimulation
    (mkStore [restedDriver] [route1] [order1 500; danglingOrder; laterOrder] [])
    (always 0) "t" (request 1)
  = runDeliverySimulation
      (mkStore [restedDriver] [route1] [order1 500; laterOrder] [])
      (always 0) "t" (request 1).
Proof.
  apply (skip_invariant
           (mkStore [restedDriver] [route1]
              [order1 500; danglingOrder; laterOrder] [])
           [order1 500] danglingOrder [laterOrder]).
  - reflexivity.
  - unfold resolvable. simpl. intros H. apply list_elem_of_In in H. simpl in H.
    destruct H as [H|[]]. discriminate H.
Defined.

(** C2, as stated, fails on the efficiency score: with 23 deliveries on time
    out of 80 the percentage is 28.75, which rounds to 28.8, but the doubles
    give 23 / 80 * 100 = 28.749999999999996 and the score 28.7.  (The store
    holds 80 valid orders with distinct ids on one route; the first 23
    draws select the rested driver, the others the fatigued one.) *)
Lemma efficiency_not_decimal_rounding :
  exists r,
    Ieee.runDeliverySimulation Ieee.eightyOrders Ieee.first23 "t" (request 2)
    = inr r
    /\ Ieee.SimulationResult.on_time_deliveries r = 23%nat
    /\ Ieee.SimulationResult.late_deliveries r = 57%nat
    /\ Ieee.SimulationResult.efficiency_score r = (287 / 10)%float
    /\ (round1 (23 / (23 + 57) * 100) == 288 / 10)%Q
    /\ (287 / 10)%float <> (288 / 10)%float.
Proof.
  eexists. split; [vm_compute; reflexivity|].
  split; [reflexivity|]. split; [reflexivity|]. split; [reflexivity|].
  split; [vm_compute; reflexivity|].
  intros E. apply (f_equal Prim2SF) in E. vm_compute in E. discriminate E.
Qed.

(** C2, amended.  Whenever every draw selects a driver, as the draws of
    [Math.random()] do, and the request is one the endpoint lets through,
    the run returns a result whose two delivery counters add up to the
    number of resolvable orders, and whose [efficiency_score] is
    [Math.round(on_time / (on_time + late) * 100 * 10) / 10] computed on
    doubles, or 0 when no order was processed.  Up to 100 deliveries the
    tenths so rounded are those of the exact percentage rounded to one
    decimal, or one less when the percentage lies exactly halfway between
    two tenths. *)
Theorem delivery_counts_and_efficiency db g now params :
  Ieee.selects
    (limit (SimulationResult.available_drivers params) (Ieee.Drivers db)) g ->
  1 <= SimulationResult.available_drivers params
    <= countDocuments (Ieee.Drivers db) ->
  exists r,
    Ieee.runDeliverySimulation db g now params = inr r
    /\ let on := Ieee.SimulationResult.on_time_deliveries r in
       let late := Ieee.SimulationResult.late_deliveries r in
       (on + late)%nat = length (filter (Ieee.resolvable db) (Ieee.Orders db))
       /\ Ieee.SimulationResult.efficiency_score r
          = (if decide (on + late = 0)%nat then 0
             else Ieee.Math_round
                    (Ieee.of_nat on / Ieee.of_nat (on + late) * 100 * 10)
                  / 10)%float
       /\ ((0 < on + late <= 100)%nat -> efficiencyAccurate on late).
Proof.
  intros Hg Hn.
  destruct (ieee_run_returns db g now params Hg Hn) as (acc & g' & Hrun & ->).
  eexists. split; [reflexivity|].
  apply ieee_processOrders_totals in Hrun as (Hc & _ & _).
  rewrite ieee_processedRoutes_map, ieee_length_processedRoutes in Hc.
  simpl in Hc. cbv zeta.
  cbn [Ieee.summarise Ieee.SimulationResult.on_time_deliveries
       Ieee.SimulationResult.late_deliveries
       Ieee.SimulationResult.efficiency_score].
  split; [exact Hc|]. split; [|apply efficiency_accuracy].
  unfold Ieee.round1, Ieee.efficiencyScore.
  destruct (Ieee.onTimeDeliveries acc + Ieee.lateDeliveries acc)%nat; reflexivity.
Qed.

Lemma delivery_counts_and_efficiency_witness :
  exists r,
    Ieee.runDeliverySimulation Ieee.eightyOrders Ieee.first23 "t" (request 2)
    = inr r
    /\ let on := Ieee.SimulationResult.on_time_deliveries r in
       let late := Ieee.SimulationResult.late_deliveries r in
       (on + late)%nat
       = length (filter (Ieee.resolvable Ieee.eightyOrders)
                   (Ieee.Orders Ieee.eightyOrders))
       /\ Ieee.SimulationResult.efficiency_score r
          = (if decide (on + late = 0)%nat then 0
             else Ieee.Math_round
                    (Ieee.of_nat on / Ieee.of_nat (on + late) * 100 * 10)
                  / 10)%float
       /\ ((0 < on + late <= 100)%nat -> efficiencyAccurate on late).
Proof.
  apply (delivery_counts_and_efficiency Ieee.eightyOrders Ieee.first23 "t"
           (request 2)).
  - intros n. unfold Ieee.first23. destruct (n <? 23)%nat; vm_compute; eauto.
  - vm_compute. split; discriminate.
Defined.







(** C5. One driver whose last day's hours are 5, one route of distance 5,
    Low traffic and base time 30, and one order on it: with [value_rs] 500
    the run returns 1 on-time and 0 late deliveries, fuel [25, 0, 25], profit
    475 and efficiency 100; with [value_rs] 1500 it returns profit 1625. *)
Theorem end_to_end_scenario driver rid oid delivery_time history g now
    start_time max_hours :
  last (Driver.past_week_hours driver) = Some 5%Q ->
  Js.unit_interval g ->
  let route := Route.mk rid 5 Low 30 in
  let db value_rs :=
    mkStore [driver] [route] [Order.mk oid value_rs rid delivery_time] history in
  let params := SimulationResult.mkParams 1 start_time max_hours in
  (exists r,
     runDeliverySimulation (db 500%Q) g now params = inr r
     /\ SimulationResult.on_time_deliveries r = 1%nat
     /\ SimulationResult.late_deliveries r = 0%nat
     /\ SimulationResult.fuel_cost_breakdown r = SimulationResult.mkFuel 25 0 25
     /\ SimulationResult.total_profit r = 475
     /\ (SimulationResult.efficiency_score r == 100)%Q)
  /\ (exists r,
     runDeliverySimulation (db 1500%Q) g now params = inr r
     /\ SimulationResult.total_profit r = 1625).
Proof.
  intros Hlast Hg. cbv zeta.
  assert (forall v,
    processOrders (buildRouteMap [Route.mk rid 5 Low 30]) [driver]
      (buildDriverFatigue [driver]) [Order.mk oid v rid delivery_time]
      (initialTotals, g)
    = inr (mkTotals (settle 0 true v (5 * 5 + 0)) 1 0 (0 + 5 * 5) (0 + 0),
           Js.tail g)) as Hloop.
  { intros v. cbn [processOrders].
    destruct (picked_Some [driver] (g O)) as (d & Hd & Hin); [apply Hg..|done|].
    apply list_elem_of_singleton in Hin. subst d.
    erewrite processOrder_resolved; [|apply lookup_insert_eq|exact Hd].
    cbv zeta. unfold buildDriverFatigue. cbn [foldl].
    rewrite lookup_insert_eq. unfold fatigueOf, yesterdayHours. rewrite Hlast.
    reflexivity. }
  unfold runDeliverySimulation.
  cbn [SimulationResult.available_drivers Drivers Routes Orders].
  change (limit 1 [driver]) with [driver].
  change (Z.of_nat (length [driver]) <? 1) with false. cbv iota.
  rewrite !Hloop.
  split; eexists; (split; [reflexivity|]); vm_compute; repeat split.
Qed.

Lemma end_to_end_scenario_witness :
  (exists r,
     runDeliverySimulation (scenario [restedDriver] 500) (always 0) "t"
       (request 1) = inr r
     /\ SimulationResult.on_time_deliveries r = 1%nat
     /\ SimulationResult.late_deliveries r = 0%nat
     /\ SimulationResult.fuel_cost_breakdown r = SimulationResult.mkFuel 25 0 25
     /\ SimulationResult.total_profit r = 475
     /\ (SimulationResult.efficiency_score r == 100)%Q)
  /\ (exists r,
     runDeliverySimulation (scenario [restedDriver] 1500) (always 0) "t"
       (request 1) = inr r
     /\ SimulationResult.total_profit r = 1625).
Proof.
  apply (end_to_end_scenario restedDriver 1 1 "01:00" [] (always 0) "t" "09:00" 8).
  - reflexivity.
  - constant_source.
Defined.




(** C7. Noninterference of the unused inputs: two runs over the same drivers,
    the same routes, orders that differ at most in [delivery_time], the same
    [available_drivers] and the same random source agree on whether they
    return and on every KPI field, whatever [start_time] and
    [max_hours_per_day] are. *)
Theorem unused_inputs_noninterference db db' g now now' params params' :
  Drivers db = Drivers db' ->
  Routes db = Routes db' ->
  Forall2 sameButDeliveryTime (Orders db) (Orders db') ->
  SimulationResult.available_drivers params
  = SimulationResult.available_drivers params' ->
  sum_map id kpi (runDeliverySimulation db g now params)
  = sum_map id kpi (runDeliverySimulation db' g now' params').
Proof.
  intros Hd Hr Ho Hn. unfold runDeliverySimulation.
  rewrite <- Hd, <- Hr, <- Hn.
  destruct (_ <? _); [done|].
  rewrite (processOrders_sameButDeliveryTime _ _ _ _ _ _ Ho).
  by destruct (processOrders _ _ _ _ _) as [e|[acc g']].
Qed.

Lemma unused_inputs_noninterference_witness :
  sum_map id kpi
    (runDeliverySimulation (scenario [restedDriver; tiredDriver] 500)
       (always (1 # 2)) "t" (request 2))
  = sum_map id kpi
      (runDeliverySimulation rescheduled (always (1 # 2)) "u"
         (SimulationResult.mkParams 2 "17:45" 24)).
Proof.
  apply (unused_inputs_noninterference (scenario [restedDriver; tiredDriver] 500)
           rescheduled (always (1 # 2)) "t" "u" (request 2)
           (SimulationResult.mkParams 2 "17:45" 24)).
  - reflexivity.
  - reflexivity.
  - simpl. constructor; [|constructor]. unfold sameButDeliveryTime. simpl. auto.
  - reflexivity.
Defined.

(** C8. The engine is not deterministic: over one store with a rested and a
    fatigued driver and a route of base time 30, two runs with the same
    parameters that differ only in the random draws return different profit,
    efficiency and delivery counts. *)
Theorem engine_not_deterministic :
  let db := scenario [restedDriver; tiredDriver] 1500 in
  exists r1 r2,
    wellFormed db = true
    /\ Js.unit_interval (always 0) /\ Js.unit_interval (always (1 # 2))
    /\ runDeliverySimulation db (always 0) "t" (request 2) = inr r1
    /\ runDeliverySimulation db (always (1 # 2)) "t" (request 2) = inr r2
    /\ SimulationResult.total_profit r1 <> SimulationResult.total_profit r2
    /\ ~ (SimulationResult.efficiency_score r1
          == SimulationResult.efficiency_score r2)%Q
    /\ SimulationResult.on_time_deliveries r1
       <> SimulationResult.on_time_deliveries r2
    /\ SimulationResult.late_deliveries r1
       <> SimulationResult.late_deliveries r2.
Proof.
  cbv zeta. eexists. eexists. split; [vm_compute; reflexivity|].
  split; [constant_source|].
  split; [constant_source|].
  split; [vm_compute; reflexivity|]. split; [vm_compute; reflexivity|].
  vm_compute. repeat split; discriminate.
Qed.

(** C9, as stated, fails: the start time 9:30, with one hour digit, is not
    of the form HH:MM, yet the request passes validation and is served. *)
Lemma validation_accepts_one_digit_hour :
  let body := SimulationResult.mkParams 1 "9:30" 8 in
  let o := post_run (scenario [restedDriver] 500) (always 0) "t" body in
  wellFormed (scenario [restedDriver] 500) = true
  /\ status (response o) = 200
  /\ ~ HH_MM (SimulationResult.start_time body)
  /\ ~ (validationFailure o
        <-> SimulationResult.available_drivers body < 1
            \/ ~ HH_MM (SimulationResult.start_time body)
            \/ SimulationResult.max_hours_per_day body < 1
            \/ 24 < SimulationResult.max_hours_per_day body).
Proof.
  cbv zeta.
  assert (~ HH_MM "9:30") as Hn by (apply not_HH_MM_short; discriminate).
  split; [vm_compute; reflexivity|].
  split; [vm_compute; reflexivity|]. split; [exact Hn|].
  intros [_ Hback].
  destruct Hback as (errors & _ & E); [right; left; exact Hn|].
  vm_compute in E. discriminate E.
Qed.

(** C9, amended.  A request whose [available_drivers] and
    [max_hours_per_day] are integers of magnitude below 2^53 and whose
    [start_time] is a text is turned down with status 400 and a non-empty
    list of field errors, with the store untouched and no store operation
    performed, exactly when [available_drivers < 1], or [start_time] is
    neither HH:MM (hours 00-23, minutes 00-59) nor H:MM with a single hour
    digit 0-9, or [max_hours_per_day] is outside 1-24. *)
Theorem validation_rule db g now body :
  Js.isSafeInteger (SimulationResult.available_drivers body) ->
  Js.isSafeInteger (SimulationResult.max_hours_per_day body) ->
  let o := post_run db g now body in
  let available_drivers := SimulationResult.available_drivers body in
  let start_time := SimulationResult.start_time body in
  let max_hours_per_day := SimulationResult.max_hours_per_day body in
  (validationFailure o /\ store o = db /\ ops o = [])
  <-> (available_drivers < 1
       \/ ~ (HH_MM start_time \/ H_MM start_time)
       \/ max_hours_per_day < 1
       \/ 24 < max_hours_per_day).
Proof.
  intros _ _. cbv zeta.
  assert ((validationFailure (post_run db g now body)
           /\ store (post_run db g now body) = db
           /\ ops (post_run db g now body) = [])
          <-> validateSimulation body <> []) as ->.
  { rewrite post_run_validationFailure. split; [by intros [? _]|].
    intros Hv. split; [done|]. by apply post_run_rejected_untouched. }
  rewrite validateSimulation_nil, <- timePattern_spec.
  destruct (matches timePattern _); split.
  - intros Hn.
    destruct (Z.lt_ge_cases (SimulationResult.available_drivers body) 1);
      [by left|].
    destruct (Z.lt_ge_cases (SimulationResult.max_hours_per_day body) 1);
      [right; right; by left|].
    destruct (Z.lt_ge_cases 24 (SimulationResult.max_hours_per_day body));
      [right; right; by right|].
    exfalso. apply Hn. split; [lia|]. split; [done|lia].
  - intros [?|[Hc|[?|?]]] (? & ? & ?); [lia|by apply Hc|lia|lia].
  - intros _. right. left. discriminate.
  - intros _ (_ & ? & _). discriminate.
Qed.

Lemma validation_rule_witness :
  let body := SimulationResult.mkParams 0 "9:30" 25 in
  let o := post_run (scenario [restedDriver] 500) (always 0) "t" body in
  (validationFailure o /\ store o = scenario [restedDriver] 500 /\ ops o = [])
  <-> (SimulationResult.available_drivers body < 1
       \/ ~ (HH_MM (SimulationResult.start_time body)
             \/ H_MM (SimulationResult.start_time body))
       \/ SimulationResult.max_hours_per_day body < 1
       \/ 24 < SimulationResult.max_hours_per_day body).
Proof.
  apply (validation_rule (scenario [restedDriver] 500) (always 0) "t"
           (SimulationResult.mkParams 0 "9:30" 25)); reflexivity.
Defined.

(** C10. [total_profit] is not clamped at zero: a single late order worth 1
    on a 10 km route gives 1 - 50 - 50 = -99; the endpoint answers 200 with
    that result and saves it, and the schema check of a result does not
    depend on [total_profit]. *)
Theorem total_profit_can_be_negative :
  (exists r,
     wellFormed lossMaking = true
     /\ Js.unit_interval (always 0)
     /\ runDeliverySimulation lossMaking (always 0) "t" (request 1) = inr r
     /\ SimulationResult.total_profit r = -99
     /\ SimulationResult.late_deliveries r = 1%nat
     /\ response (post_run lossMaking (always 0) "t" (request 1))
        = mkResponse 200 (JResult r)
     /\ SimulationResults (store (post_run lossMaking (always 0) "t" (request 1)))
        = [r])
  /\ (forall profit eff on late fuel params timestamp,
        SimulationResult.validate
          (SimulationResult.mk profit eff on late fuel params timestamp)
        = SimulationResult.validate
            (SimulationResult.mk 0 eff on late fuel params timestamp)).
Proof.
  split; [|reflexivity]. eexists. split; [vm_compute; reflexivity|].
  split; [constant_source|].
  split; [vm_compute; reflexivity|]. vm_compute. repeat split.
Qed.

(** * Further properties *)

(** ** Decimal rendering and parsing *)

Lemma digits_value_uint d acc :
  Js.digits_value acc (NilEmpty.string_of_uint d) = Some (uint_value d acc).
Proof.
  revert acc.
  induction d; intros acc;
    cbn [NilEmpty.string_of_uint uint_value Js.digits_value]; try done;
    match goal with
    | |- context [Js.digit_value ?c] =>
        let v := eval vm_compute in (Js.digit_value c) in
        change (Js.digit_value c) with v
    end;
    cbv iota beta; rewrite IHd; rewrite ?Z.add_0_r; reflexivity.
Qed.

Lemma uint_value_acc d p :
  Z.pos (Pos.of_uint_acc d p) = uint_value d (Z.pos p).
Proof.
  revert p. induction d; intros p; simpl; try done; rewrite IHd; f_equal; lia.
Qed.

Lemma uint_value_of_uint d : Z.of_N (Pos.of_uint d) = uint_value d 0.
Proof.
  induction d; simpl; try done; try (rewrite uint_value_acc; reflexivity).
Qed.

(** A non-negative integer reads back from its rendering. *)
Lemma digits_value_show n : 0 <= n -> Js.digits_value 0 (Js.show n) = Some n.
Proof.
  intros Hn. unfold Js.show. destruct n as [|p|p]; [done| |lia].
  change (Js.digits_value 0 (NilZero.string_of_uint (Pos.to_uint p))
          = Some (Z.pos p)).
  pose proof (Unsigned.to_uint_nonnil p) as Hnil.
  pose proof (Unsigned.of_to p) as Hp.
  unfold NilZero.string_of_uint.
  destruct (Pos.to_uint p); [done|..];
    rewrite digits_value_uint, <- uint_value_of_uint, Hp; reflexivity.
Qed.

Lemma append_String x (a b : string) : String x a ++ b = String x (a ++ b).
Proof. reflexivity. Qed.

Lemma append_empty_r (a : string) : a ++ "" = a.
Proof. induction a as [|x a IH]; [done|]. by rewrite append_String, IH. Qed.

Lemma string_app_assoc (a b c : string) : (a ++ b) ++ c = a ++ b ++ c.
Proof.
  induction a as [|x a IH]; [done|]. by rewrite !append_String, IH.
Qed.

(** A digit is not a colon. *)
Lemma digit_not_colon c d : Js.digit_value c = Some d -> Ascii.eqb c ":" = false.
Proof.
  unfold Js.digit_value. intros H. apply Ascii.eqb_neq. intros ->.
  vm_compute in H. discriminate H.
Qed.

(** Splitting a run of digits at colons leaves it whole. *)
Lemma split_chars_digits s acc v cur :
  Js.digits_value acc s = Some v ->
  Js.split_chars ":" cur s = [cur ++ s].
Proof.
  revert acc cur. induction s as [|c s IH]; intros acc cur; simpl.
  - intros _. by rewrite append_empty_r.
  - destruct (Js.digit_value c) as [d|] eqn:Hd; [|done]. intros Hs.
    rewrite (digit_not_colon _ _ Hd), (IH _ _ Hs). f_equal.
    apply string_app_assoc.
Qed.

(** Digits, a colon, digits: two pieces. *)
Lemma split_chars_colon a b acc v acc' v' cur :
  Js.digits_value acc a = Some v ->
  Js.digits_value acc' b = Some v' ->
  Js.split_chars ":" cur (a ++ String ":" b) = [cur ++ a; b].
Proof.
  intros Ha Hb. revert acc cur Ha. induction a as [|c a IH]; intros acc cur; simpl.
  - intros _. rewrite (split_chars_digits b acc' v' "" Hb).
    by rewrite append_empty_r.
  - destruct (Js.digit_value c) as [d|] eqn:Hd; [|done]. intros Hs.
    rewrite (digit_not_colon _ _ Hd), (IH _ _ Hs). f_equal.
    apply string_app_assoc.
Qed.

(** Padding with zeros keeps the value of a run of digits. *)
Lemma digits_value_padStart s v :
  Js.digits_value 0 s = Some v ->
  Js.digits_value 0 (padStart 2 "0" s) = Some v.
Proof.
  by destruct s as [|c [|c' s]].
Qed.

Lemma timeToMinutes_digits a b h m :
  Js.digits_value 0 a = Some h ->
  Js.digits_value 0 b = Some m ->
  timeToMinutes (a ++ ":" ++ b) = Some (inject_Z (h * 60 + m)).
Proof.
  intros Ha Hb. unfold timeToMinutes, Js.split.
  change (":" ++ b) with (String ":" b).
  rewrite (split_chars_colon a b 0 h 0 m "" Ha Hb). simpl.
  change ("" ++ a) with a.
  unfold Js.Number. rewrite Ha, Hb. simpl. unfold Qplus, Qmult, inject_Z. simpl.
  do 2 f_equal. lia.
Qed.

(** X1. Round trip of the two time helpers: for every whole number of
    minutes [n] from 0 to below 2^53, [timeToMinutes (minutesToTime n)] is
    [n] again, also past 24 hours, where [minutesToTime] writes an hour of
    three or more digits. *)
Theorem timeToMinutes_minutesToTime n :
  0 <= n < 2 ^ 53 -> timeToMinutes (minutesToTime n) = Some (inject_Z n).
Proof.
  intros [Hn _]. unfold minutesToTime.
  assert (0 <= n / 60) as Hh by (apply Z.div_pos; lia).
  assert (0 <= Z.rem n 60) as Hm by (apply Z.rem_nonneg; lia).
  rewrite (timeToMinutes_digits _ _ (n / 60) (Z.rem n 60));
    [|by apply digits_value_padStart, digits_value_show..].
  do 2 f_equal. rewrite Z.rem_mod_nonneg by lia.
  pose proof (Z.div_mod n 60). lia.
Qed.

Lemma timeToMinutes_minutesToTime_witness :
  timeToMinutes (minutesToTime 615) = Some (inject_Z 615).
Proof. apply (timeToMinutes_minutesToTime 615). split; [lia|reflexivity]. Defined.

Lemma minutesOf_Some s n :
  minutesOf s = Some n -> timeToMinutes s = Some (inject_Z n).
Proof.
  unfold minutesOf. destruct (timeToMinutes s) as [[a [d|d|]]|]; try done.
  by intros [= ->].
Qed.

(** Every accepted rendering parses to its minutes and is rendered back,
    with a leading zero added to a one-digit hour: a finite check. *)
Lemma accepted_times_all :
  forallb (fun h =>
    forallb (fun m =>
      let n := Z.of_nat (h * 60 + m) in
      let long := two_digits h ++ ":" ++ two_digits m in
      let short := String (digit h) "" ++ ":" ++ two_digits m in
      bool_decide (minutesOf long = Some n)
      && String.eqb (minutesToTime n) long
      && (if (h <=? 9)%nat
          then bool_decide (minutesOf short = Some n)
               && String.eqb (minutesToTime n) ("0" ++ short)
          else true))
      (seq 0 60))
    (seq 0 24) = true.
Proof. vm_compute. reflexivity. Qed.

Lemma accepted_times h m :
  (h <= 23)%nat -> (m <= 59)%nat ->
  let n := Z.of_nat (h * 60 + m) in
  let long := two_digits h ++ ":" ++ two_digits m in
  let short := String (digit h) "" ++ ":" ++ two_digits m in
  (timeToMinutes long = Some (inject_Z n) /\ minutesToTime n = long)
  /\ ((h <= 9)%nat ->
      timeToMinutes short = Some (inject_Z n)
      /\ minutesToTime n = "0" ++ short).
Proof.
  intros Hh Hm. pose proof accepted_times_all as Hall.
  rewrite forallb_forall in Hall.
  specialize (Hall h ltac:(apply in_seq; lia)).
  rewrite forallb_forall in Hall.
  specialize (Hall m ltac:(apply in_seq; lia)). cbv zeta in Hall.
  apply andb_true_iff in Hall as [[H1 H2]%andb_true_iff H3].
  apply bool_decide_eq_true in H1. apply String.eqb_eq in H2.
  split; [split; [by apply minutesOf_Some|done]|].
  intros H9. apply Nat.leb_le in H9. rewrite H9 in H3.
  apply andb_true_iff in H3 as [H4 H5].
  apply bool_decide_eq_true in H4. apply String.eqb_eq in H5.
  split; [by apply minutesOf_Some|done].
Qed.

(** X2. A text the validators' time pattern accepts always parses: to a
    whole number of minutes from 0 to 1439, never to NaN.  [minutesToTime]
    renders those minutes back as the text itself when it has two hour
    digits, and as the text with a leading 0 when it has one. *)
Theorem accepted_time_round_trip s :
  matches timePattern s = true ->
  exists n,
    0 <= n < 1440
    /\ timeToMinutes s = Some (inject_Z n)
    /\ (HH_MM s -> minutesToTime n = s)
    /\ (H_MM s -> minutesToTime n = "0" ++ s).
Proof.
  intros [(h & m & Hh & Hm & ->)|(h & m & Hh & Hm & ->)]%timePattern_spec.
  - destruct (accepted_times h m Hh Hm) as [[Hp Hr] _].
    exists (Z.of_nat (h * 60 + m)). split; [lia|]. split; [done|].
    split; [done|]. intros (h' & m' & _ & _ & E).
    apply (f_equal String.length) in E. discriminate E.
  - destruct (accepted_times h m ltac:(lia) Hm) as [_ Hs].
    destruct (Hs Hh) as [Hp Hr].
    exists (Z.of_nat (h * 60 + m)). split; [lia|]. split; [done|].
    split; [|done]. intros (h' & m' & _ & _ & E).
    apply (f_equal String.length) in E. discriminate E.
Qed.

Lemma accepted_time_round_trip_witness :
  exists n,
    0 <= n < 1440
    /\ timeToMinutes "9:30" = Some (inject_Z n)
    /\ (HH_MM "9:30" -> minutesToTime n = "9:30")
    /\ (H_MM "9:30" -> minutesToTime n = "0" ++ "9:30").
Proof. apply (accepted_time_round_trip "9:30"). vm_compute. reflexivity. Defined.

(** Splitting a text that holds no separator leaves it whole. *)
Lemma split_chars_no_sep sep s cur :
  Forall (fun c => c <> sep) (list_ascii_of_string s) ->
  Js.split_chars sep cur s = [cur ++ s].
Proof.
  revert cur. induction s as [|c s IH]; intros cur; simpl.
  - intros _. by rewrite append_empty_r.
  - intros [Hc Hs]%Forall_cons. apply Ascii.eqb_neq in Hc. rewrite Hc.
    rewrite (IH _ Hs). f_equal. apply string_app_assoc.
Qed.

(** X3. A text that holds no colon splits into a single piece, the minutes
    piece is [undefined], and [timeToMinutes] gives NaN. *)
Theorem timeToMinutes_without_colon s :
  Forall (fun c => c <> ":"%char) (list_ascii_of_string s) ->
  timeToMinutes s = None.
Proof.
  intros Hs. unfold timeToMinutes, Js.split.
  rewrite (split_chars_no_sep _ _ _ Hs). simpl. by destruct (Js.Number _).
Qed.

Lemma timeToMinutes_without_colon_witness : timeToMinutes "0930" = None.
Proof.
  apply (timeToMinutes_without_colon "0930").
  simpl. repeat constructor; discriminate.
Defined.

(** ** The loop as a fold over verdicts *)

(** Whatever the ids, a selected driver finds the entry of some selected
    driver. *)
Lemma buildDriverFatigue_lookup_elem drivers driver :
  driver ∈ drivers ->
  exists d, d ∈ drivers
    /\ buildDriverFatigue drivers !! Driver._id driver = Some (fatigueOf d).
Proof.
  intros Hin. unfold buildDriverFatigue.
  rewrite (foldl_insert_lookup Driver._id fatigueOf).
  destruct (last _) as [d|] eqn:E.
  - apply last_Some_elem_of, list_elem_of_filter in E as [_ Hd]. eauto.
  - apply last_None in E.
    exfalso. by apply (filter_nil_not_elem_of _ _ driver E).
Qed.

(** The loop returns the fold of [deliver] over the processed orders, each
    with the verdict of some selected driver. *)
Lemma processOrders_replay routes drivers orders acc g acc' g' :
  processOrders (buildRouteMap routes) drivers (buildDriverFatigue drivers)
    orders (acc, g) = inr (acc', g') ->
  exists vs,
    Forall2 (verdictOn routes drivers)
      (omap (fun o => (fun r => (o, r)) <$> lookupRoute routes (Order.route_id o))
         orders) vs
    /\ acc' = foldl deliver acc
                (zip (omap (fun o => (fun r => (o, r))
                                       <$> lookupRoute routes (Order.route_id o))
                        orders) vs).
Proof.
  revert acc g. induction orders as [|o orders IH]; intros acc g;
    cbn [processOrders omap list_omap].
  - intros [= <- <-]. exists []. by split; [constructor|].
  - rewrite <- buildRouteMap_lookup.
    destruct (buildRouteMap routes !! Order.route_id o) as [route|] eqn:Hr.
    + unfold processOrder at 1, Js.Math_random. rewrite Hr. cbv beta iota zeta.
      destruct (Js.index drivers _) as [d|] eqn:Hd; [|done].
      pose proof (picked_elem_of _ _ _ Hd) as Hin.
      destruct (buildDriverFatigue_lookup_elem _ _ Hin) as (d' & Hin' & ->).
      intros Hrest. apply IH in Hrest as (vs & Hvs & ->).
      eexists (_ :: vs). split.
      * constructor; [|exact Hvs]. split.
        -- rewrite buildRouteMap_lookup in Hr.
           apply lookupRoute_Some in Hr as [_ Hr]. exact Hr.
        -- exists d'. split; [done|reflexivity].
      * reflexivity.
    + rewrite processOrder_skip by done. apply IH.
Qed.

(** The fold when every verdict is on time. *)
Lemma deliver_all_on_time l vs acc :
  Forall2 (fun _ v => v = true) l vs ->
  let acc' := foldl deliver acc (zip l vs) in
  onTimeDeliveries acc' = (onTimeDeliveries acc + length l)%nat
  /\ lateDeliveries acc' = lateDeliveries acc
  /\ (totalProfit acc'
      == totalProfit acc
         + Qsum ((fun p => Order.value_rs p.1 - Virtual.total (Virtual.fuelCost p.2))
                   <$> l)
         + Qsum ((fun p => bonus p.1) <$> l))%Q.
Proof.
  intros Hvs. revert acc. induction Hvs as [|[o r] v l vs -> _ IH]; intros acc.
  - simpl. split; [lia|]. split; [done|]. ring.
  - cbn [zip zip_with foldl]. destruct (IH (deliver acc (o, r, true))) as (Hon & Hl & Hp).
    cbv zeta. rewrite Hon, Hl, Hp. cbn [deliver onTimeDeliveries lateDeliveries totalProfit length].
    split; [lia|]. split; [done|].
    rewrite !fmap_cons, !Qsum_cons. unfold settle, bonus, Virtual.isHighValue.
    cbn [fst snd Virtual.total Virtual.base Virtual.surcharge Virtual.fuelCost].
    destruct (Js.gt _ _); ring.
Qed.

(** The fold when every verdict is late. *)
Lemma deliver_all_late l vs acc :
  Forall2 (fun _ v => v = false) l vs ->
  let acc' := foldl deliver acc (zip l vs) in
  onTimeDeliveries acc' = onTimeDeliveries acc
  /\ lateDeliveries acc' = (lateDeliveries acc + length l)%nat
  /\ (totalProfit acc'
      == totalProfit acc
         + Qsum ((fun p => Order.value_rs p.1 - Virtual.total (Virtual.fuelCost p.2))
                   <$> l)
         - 50 * inject_Z (Z.of_nat (length l)))%Q.
Proof.
  intros Hvs. revert acc. induction Hvs as [|[o r] v l vs -> _ IH]; intros acc.
  - simpl. split; [done|]. split; [lia|]. ring.
  - cbn [zip zip_with foldl]. destruct (IH (deliver acc (o, r, false))) as (Hon & Hl & Hp).
    cbv zeta. rewrite Hon, Hl, Hp. cbn [deliver onTimeDeliveries lateDeliveries totalProfit length].
    split; [done|]. split; [lia|].
    rewrite !fmap_cons, !Qsum_cons, Nat2Z.inj_succ, <- Z.add_1_r, inject_Z_plus.
    unfold settle.
    cbn [fst snd Virtual.total Virtual.base Virtual.surcharge Virtual.fuelCost].
    change (inject_Z 1) with 1%Q. ring.
Qed.

(** ** Whole runs *)

(** A run that returns is the summary of the loop's totals. *)
Lemma run_inversion db g now params r :
  runDeliverySimulation db g now params = inr r ->
  exists acc g',
    processOrders (buildRouteMap (Routes db))
      (limit (SimulationResult.available_drivers params) (Drivers db))
      (buildDriverFatigue
         (limit (SimulationResult.available_drivers params) (Drivers db)))
      (Orders db) (initialTotals, g) = inr (acc, g')
    /\ r = summarise acc params now.
Proof.
  unfold runDeliverySimulation. destruct (_ <? _); [done|].
  destruct (processOrders _ _ _ _ _) as [e|[acc g']]; [done|].
  intros [= <-]. eauto.
Qed.

(** A request the endpoint lets through makes the engine return. *)
Lemma run_returns db g now params :
  Js.unit_interval g ->
  1 <= SimulationResult.available_drivers params <= countDocuments (Drivers db) ->
  exists acc g',
    processOrders (buildRouteMap (Routes db))
      (limit (SimulationResult.available_drivers params) (Drivers db))
      (buildDriverFatigue
         (limit (SimulationResult.available_drivers params) (Drivers db)))
      (Orders db) (initialTotals, g) = inr (acc, g')
    /\ runDeliverySimulation db g now params = inr (summarise acc params now).
Proof.
  intros Hg Hn. pose proof (length_limit _ _ Hn) as Hlen.
  unfold runDeliverySimulation, countDocuments in *.
  set (n := SimulationResult.available_drivers params) in *.
  destruct (Z.ltb_spec (Z.of_nat (length (limit n (Drivers db)))) n); [lia|].
  destruct (processOrders_returns (buildRouteMap (Routes db))
              (limit n (Drivers db)) (buildDriverFatigue (limit n (Drivers db)))
              (Orders db) initialTotals g)
    as (acc & g' & Hrun); [done| |].
  { intros E. rewrite E in Hlen. simpl in Hlen. lia. }
  rewrite Hrun. eauto.
Qed.

(** The verdict of a rested driver, and of any driver on a short route. *)
Lemma verdict_on_time d base :
  ~ fatigued d \/ (base <= 70 # 3)%Q ->
  isOnTime (Some (base / fatigueOf d)%Q) base = true.
Proof.
  intros H. apply isOnTime_Some. rewrite fatigueOf_spec.
  destruct (fatigueMultiplier_cases d) as [->| E]; [apply on_time_rested|].
  destruct H as [H|H]; [done|]. rewrite E.
  destruct (Qlt_le_dec (base + 10) (base / (7 # 10))) as [Hlt|Hle]; [|done].
  exfalso. assert (70 # 3 < base)%Q; [|lra].
  apply on_time_tired. lra.
Qed.

Lemma verdict_late d base :
  fatigued d -> (70 # 3 < base)%Q ->
  isOnTime (Some (base / fatigueOf d)%Q) base = false.
Proof.
  intros Hf Hb. rewrite fatigueOf_spec, Hf.
  destruct (isOnTime _ _) eqn:E; [|done].
  apply isOnTime_Some in E. by apply on_time_tired in Hb.
Qed.

Lemma efficiency_all_on_time (n : nat) :
  (inject_Z (Js.Math_round
     (inject_Z (Z.of_nat (S n)) / inject_Z (Z.of_nat (S n + 0)) * 100 * 10)) / 10
   == 100)%Q.
Proof.
  rewrite Nat.add_0_r.
  assert (~ inject_Z (Z.of_nat (S n)) == 0)%Q as Hnz.
  { change 0%Q with (inject_Z 0). rewrite inject_Z_injective. lia. }
  rewrite (Math_round_comp _ (inject_Z 1000)); [|by field].
  rewrite Math_round_Z. reflexivity.
Qed.

(** X5. When no selected driver is fatigued, or every stored route has a
    base time that is a whole number of at most 23 minutes, a run the
    endpoint lets through returns with no late delivery whatever the draws:
    every processed order is on time, and the efficiency score is 100 as
    soon as one order is processed. *)
Theorem all_on_time db g now params :
  Js.unit_interval g ->
  1 <= SimulationResult.available_drivers params <= countDocuments (Drivers db) ->
  (forall d,
     d ∈ limit (SimulationResult.available_drivers params) (Drivers db) ->
     ~ fatigued d)
  \/ (forall route, route ∈ Routes db ->
        integral (Route.base_time route) /\ (Route.base_time route <= 23)%Q) ->
  exists r,
    runDeliverySimulation db g now params = inr r
    /\ SimulationResult.late_deliveries r = 0%nat
    /\ SimulationResult.on_time_deliveries r = length (processedOrders db)
    /\ (processedOrders db <> [] ->
        (SimulationResult.efficiency_score r == 100)%Q).
Proof.
  intros Hg Hn Hcase.
  destruct (run_returns db g now params Hg Hn) as (acc & g' & Hloop & ->).
  eexists. split; [reflexivity|].
  apply processOrders_replay in Hloop as (vs & Hvs & ->).
  fold (processedOrders db) in *.
  assert (Forall2 (fun _ v => v = true) (processedOrders db) vs) as Hall.
  { eapply Forall2_impl; [exact Hvs|].
    intros p v (Hr & d & Hd & ->). apply verdict_on_time.
    destruct Hcase as [H|H]; [left; by apply H|right].
    destruct (H _ Hr) as [_ Hle]. lra. }
  destruct (deliver_all_on_time _ _ initialTotals Hall) as (Hon & Hlate & _).
  cbn [SimulationResult.late_deliveries SimulationResult.on_time_deliveries
       SimulationResult.efficiency_score summarise].
  rewrite Hon, Hlate. cbn [initialTotals onTimeDeliveries lateDeliveries].
  split; [done|]. split; [done|].
  intros Hne. destruct (processedOrders db) as [|p l]; [done|].
  cbn [length Nat.add Nat.ltb Nat.leb]. apply efficiency_all_on_time.
Qed.

Lemma all_on_time_witness :
  exists r,
    runDeliverySimulation (scenario [restedDriver] 1500) (always 0) "t" (request 1)
    = inr r
    /\ SimulationResult.late_deliveries r = 0%nat
    /\ SimulationResult.on_time_deliveries r
       = length (processedOrders (scenario [restedDriver] 1500))
    /\ (processedOrders (scenario [restedDriver] 1500) <> [] ->
        (SimulationResult.efficiency_score r == 100)%Q).
Proof.
  apply (all_on_time (scenario [restedDriver] 1500) (always 0) "t" (request 1)).
  - constant_source.
  - vm_compute. split; discriminate.
  - left. intros d Hd. apply list_elem_of_singleton in Hd. subst d.
    vm_compute. discriminate.
Defined.

(** X6. When every selected driver is fatigued and every stored route has a
    base time that is a whole number of at least 24 minutes, a run the
    endpoint lets through returns with every processed order late whatever
    the draws, and the efficiency score is 0. *)
Theorem all_late db g now params :
  Js.unit_interval g ->
  1 <= SimulationResult.available_drivers params <= countDocuments (Drivers db) ->
  (forall d,
     d ∈ limit (SimulationResult.available_drivers params) (Drivers db) ->
     fatigued d) ->
  (forall route, route ∈ Routes db ->
     integral (Route.base_time route) /\ (24 <= Route.base_time route)%Q) ->
  exists r,
    runDeliverySimulation db g now params = inr r
    /\ SimulationResult.on_time_deliveries r = 0%nat
    /\ SimulationResult.late_deliveries r = length (processedOrders db)
    /\ (SimulationResult.efficiency_score r == 0)%Q.
Proof.
  intros Hg Hn Hd Hr.
  destruct (run_returns db g now params Hg Hn) as (acc & g' & Hloop & ->).
  eexists. split; [reflexivity|].
  apply processOrders_replay in Hloop as (vs & Hvs & ->).
  fold (processedOrders db) in *.
  assert (Forall2 (fun _ v => v = false) (processedOrders db) vs) as Hall.
  { eapply Forall2_impl; [exact Hvs|].
    intros p v (Hin & d & Hdin & ->). apply verdict_late; [auto|].
    destruct (Hr _ Hin) as [_ Hle]. lra. }
  destruct (deliver_all_late _ _ initialTotals Hall) as (Hon & Hlate & _).
  cbn [SimulationResult.late_deliveries SimulationResult.on_time_deliveries
       SimulationResult.efficiency_score summarise].
  rewrite Hon, Hlate. cbn [initialTotals onTimeDeliveries lateDeliveries].
  split; [done|]. split; [done|].
  cbn [Nat.add]. destruct (0 <? length (processedOrders db))%nat;
    [|reflexivity].
  rewrite (Math_round_comp _ (inject_Z 0)); [by rewrite Math_round_Z|].
  unfold Qdiv. change (inject_Z (Z.of_nat 0)) with 0%Q.
  rewrite !Qmult_0_l. reflexivity.
Qed.

Lemma all_late_witness :
  exists r,
    runDeliverySimulation lossMaking (always 0) "t" (request 1) = inr r
    /\ SimulationResult.on_time_deliveries r = 0%nat
    /\ SimulationResult.late_deliveries r = length (processedOrders lossMaking)
    /\ (SimulationResult.efficiency_score r == 0)%Q.
Proof.
  apply (all_late lossMaking (always 0) "t" (request 1)).
  - constant_source.
  - vm_compute. split; discriminate.
  - intros d Hd. apply list_elem_of_singleton in Hd. subst d. reflexivity.
  - intros route Hr. apply list_elem_of_singleton in Hr. subst route.
    split; [by exists 30|]. vm_compute. discriminate.
Defined.

(** X7. Drivers stored after the first [available_drivers] play no part in
    a run: adding drivers at the end of the collection changes neither the
    result nor the error, for every random source. *)
Theorem surplus_drivers_ignored db surplus g now params :
  1 <= SimulationResult.available_drivers params <= countDocuments (Drivers db) ->
  runDeliverySimulation
    (mkStore (Drivers db ++ surplus)%list (Routes db) (Orders db)
       (SimulationResults db)) g now params
  = runDeliverySimulation db g now params.
Proof.
  intros Hn. unfold runDeliverySimulation, countDocuments in *.
  cbn [Drivers Routes Orders].
  set (n := SimulationResult.available_drivers params) in *.
  assert (limit n (Drivers db ++ surplus)%list = limit n (Drivers db)) as ->; [|done].
  unfold limit. destruct (Z.eqb_spec n 0); [lia|].
  apply take_app_le. lia.
Qed.

Lemma surplus_drivers_ignored_witness :
  runDeliverySimulation
    (mkStore ([restedDriver] ++ [tiredDriver])%list [route1] [order1 500] [])
    (always (9 # 10)) "t" (request 1)
  = runDeliverySimulation (scenario [restedDriver] 500) (always (9 # 10)) "t"
      (request 1).
Proof.
  apply (surplus_drivers_ignored (scenario [restedDriver] 500) [tiredDriver]
           (always (9 # 10)) "t" (request 1)).
  vm_compute. split; discriminate.
Defined.

(** X8. Frame of [POST /api/simulation/run]: it never changes the drivers,
    the routes or the orders; either it answers 200 with the engine's result
    and the history grows by exactly that result at its end, or it answers
    400 or 500 and the store is unchanged. *)
Theorem post_run_frame db g now body :
  let o := post_run db g now body in
  Drivers (store o) = Drivers db
  /\ Routes (store o) = Routes db
  /\ Orders (store o) = Orders db
  /\ ((exists r,
         response o = mkResponse 200 (JResult r)
         /\ runDeliverySimulation db g now body = inr r
         /\ SimulationResults (store o) = (SimulationResults db ++ [r])%list)
      \/ ((status (response o) = 400 \/ status (response o) = 500)
          /\ store o = db)).
Proof.
  cbv zeta. unfold post_run. destruct (negb _); [by auto 10|].
  destruct (_ <? _); [by auto 10|]. rewrite params_eta.
  destruct (runDeliverySimulation db g now body) as [e|r]; [by auto 10|].
  unfold save. destruct (SimulationResult.validate r); [|by auto 10].
  cbn [store response Drivers Routes Orders SimulationResults].
  split; [done|]. split; [done|]. split; [done|]. left. eauto.
Qed.





(** ** The history listing *)

Lemma insertNewest_Permutation r l : insertNewest r l ≡ₚ r :: l.
Proof.
  induction l as [|r' l IH]; simpl; [done|].
  destruct (String.leb _ _); [done|]. rewrite IH. apply Permutation_swap.
Qed.

(** Sorting loses and invents nothing. *)
Lemma newestFirst_Permutation docs : newestFirst docs ≡ₚ docs.
Proof.
  induction docs as [|r docs IH]; simpl; [done|].
  by rewrite insertNewest_Permutation, IH.
Qed.

Lemma length_newestFirst docs : length (newestFirst docs) = length docs.
Proof. by rewrite newestFirst_Permutation. Qed.

(** [Math.ceil] of a quotient of integers, in integers. *)
Lemma Qceiling_div (total size : Z) :
  0 < size ->
  Qceiling (inject_Z total / inject_Z size) = (total + size - 1) / size.
Proof.
  intros Hs. unfold Qceiling.
  assert (- (inject_Z total / inject_Z size) == inject_Z (- total) / inject_Z size)%Q
    as ->.
  { rewrite inject_Z_opp. field. change 0%Q with (inject_Z 0).
    rewrite inject_Z_injective. lia. }
  rewrite <- Zdiv_Qdiv.
  pose proof (Z.div_mod (- total) size ltac:(lia)).
  pose proof (Z.mod_pos_bound (- total) size Hs).
  pose proof (Z.div_mod (total + size - 1) size ltac:(lia)).
  pose proof (Z.mod_pos_bound (total + size - 1) size Hs).
  nia.
Qed.

(** The answer to a request for a page of positive size and number. *)
Lemma get_history_page db size page :
  1 <= size -> 1 <= page ->
  get_history db (pageQuery size page)
  = let skipped := Z.to_nat ((page - 1) * size) in
    let results :=
      take (Z.to_nat size) (drop skipped (newestFirst (SimulationResults db))) in
    let total := countDocuments (SimulationResults db) in
    HistoryOk results
      (mkPagination page (Some ((total + size - 1) / size)) total
         ((page - 1) * size + Z.of_nat (length results) <? total)
         (1 <? page)).
Proof.
  intros Hs Hp. unfold get_history, pageQuery, skip, limit.
  cbv [query_limit query_page default from_option id].
  assert (0 <= (page - 1) * size) by (apply Z.mul_nonneg_nonneg; lia).
  destruct (Z.ltb_spec ((page - 1) * size) 0); [lia|].
  destruct (Z.eqb_spec size 0); [lia|].
  rewrite Qceiling_div by lia. by rewrite Z.abs_eq by lia.
Qed.

(** X12. For a page size and a page number of at least 1 the history
    listing answers with at most [limit] results and with metadata that
    agree with them: [total_pages] is the stored count divided by the size,
    rounded up; [has_next] holds exactly on the pages before the last; every
    page before the last is full; a page past the last is empty. *)
Theorem history_page_metadata db size page :
  1 <= size -> 1 <= page ->
  exists results pages next,
    get_history db (pageQuery size page)
    = HistoryOk results
        (mkPagination page (Some pages)
           (countDocuments (SimulationResults db)) next (1 <? page))
    /\ Z.of_nat (length results) <= size
    /\ pages = (countDocuments (SimulationResults db) + size - 1) / size
    /\ (next = true <-> page < pages)
    /\ (page < pages -> Z.of_nat (length results) = size)
    /\ (pages < page -> results = []).
Proof.
  intros Hs Hp. rewrite get_history_page by done. cbv zeta.
  eexists _, _, _. split; [reflexivity|].
  unfold countDocuments. rewrite <- (length_newestFirst (SimulationResults db)).
  set (l := newestFirst (SimulationResults db)).
  set (k := (page - 1) * size) in *.
  assert (0 <= k) as Hk by (subst k; apply Z.mul_nonneg_nonneg; lia).
  pose proof (Z.div_mod (Z.of_nat (length l) + size - 1) size ltac:(lia)) as Hdiv.
  pose proof (Z.mod_pos_bound (Z.of_nat (length l) + size - 1) size ltac:(lia))
    as Hmod.
  set (pages := (Z.of_nat (length l) + size - 1) / size) in *.
  rewrite length_take, length_drop.
  split; [lia|]. split; [done|]. split; [|split].
  - rewrite Z.ltb_lt. subst k. split; intros H; nia.
  - intros H. subst k. nia.
  - intros H. apply nil_length_inv. rewrite length_take, length_drop.
    subst k. nia.
Qed.

Lemma history_page_metadata_witness :
  let db := mkStore [] [] [] [summarise initialTotals (request 1) "a";
                              summarise initialTotals (request 1) "c";
                              summarise initialTotals (request 1) "b"] in
  exists results pages next,
    get_history db (pageQuery 2 1)
    = HistoryOk results
        (mkPagination 1 (Some pages)
           (countDocuments (SimulationResults db)) next (1 <? 1))
    /\ Z.of_nat (length results) <= 2
    /\ pages = (countDocuments (SimulationResults db) + 2 - 1) / 2
    /\ (next = true <-> 1 < pages)
    /\ (1 < pages -> Z.of_nat (length results) = 2)
    /\ (pages < 1 -> results = []).
Proof.
  apply (history_page_metadata
           (mkStore [] [] [] [summarise initialTotals (request 1) "a";
                              summarise initialTotals (request 1) "c";
                              summarise initialTotals (request 1) "b"]) 2 1);
    lia.
Defined.

(** Consecutive slices of length [k] make up the list. *)
Lemma slices_cover {A} (l : list A) (k n : nat) :
  (0 < k)%nat -> (length l <= n * k)%nat ->
  concat ((fun i => take k (drop (i * k) l)) <$> seq 0 n) = l.
Proof.
  intros Hk. revert l. induction n as [|n IH]; intros l Hl.
  - symmetry. apply nil_length_inv. lia.
  - cbn [seq fmap list_fmap concat]. rewrite <- fmap_S_seq, <- list_fmap_compose.
    change (0 * k)%nat with 0%nat. rewrite drop_0.
    transitivity (take k l ++ drop k l)%list; [|apply take_drop]. f_equal.
    etransitivity; [|apply (IH (drop k l)); rewrite length_drop; lia].
    f_equal. apply list_fmap_ext. intros _ i _. simpl.
    by rewrite drop_drop.
Qed.

(** Insertion keeps the list newest first. *)
Lemma insertNewest_Sorted r l : Sorted notOlder l -> Sorted notOlder (insertNewest r l).
Proof.
  induction 1 as [|r' l Hl IH Hhd]; simpl; [by repeat constructor|].
  destruct (String.leb (SimulationResult.timestamp r')
              (SimulationResult.timestamp r)) eqn:E.
  - constructor; [by constructor|]. by constructor.
  - constructor; [done|].
    assert (notOlder r' r) as Hr.
    { unfold notOlder.
      destruct (String.leb_total (SimulationResult.timestamp r)
                  (SimulationResult.timestamp r')); congruence. }
    destruct Hhd as [|r'' l'' Hh]; simpl; [by constructor|].
    destruct (String.leb (SimulationResult.timestamp r'')
                (SimulationResult.timestamp r)); by constructor.
Qed.

Lemma newestFirst_Sorted docs : Sorted notOlder (newestFirst docs).
Proof.
  induction docs as [|r docs IH]; simpl; [constructor|].
  by apply insertNewest_Sorted.
Qed.

Lemma Sorted_drop {A} (R : relation A) n l : Sorted R l -> Sorted R (drop n l).
Proof.
  revert l. induction n as [|n IH]; intros l Hl; [by rewrite drop_0|].
  destruct Hl; [constructor|]. by apply IH.
Qed.

Lemma Sorted_take {A} (R : relation A) n l : Sorted R l -> Sorted R (take n l).
Proof.
  intros Hl. revert n. induction Hl as [|x l Hl IH Hhd]; intros [|n]; simpl;
    try constructor; [apply IH|].
  destruct Hhd; destruct n; simpl; by constructor.
Qed.

(** The order of texts is transitive. *)
Lemma string_leb_trans (a b c : string) :
  String.leb a b = true -> String.leb b c = true -> String.leb a c = true.
Proof.
  unfold String.leb. revert b c.
  induction a as [|x a IH]; intros [|y b] [|z c]; simpl; try done.
  specialize (IH b c). unfold Ascii.compare.
  destruct (N.compare_spec (N_of_ascii x) (N_of_ascii y)),
    (N.compare_spec (N_of_ascii y) (N_of_ascii z)),
    (N.compare_spec (N_of_ascii x) (N_of_ascii z));
    try done; try lia; auto.
Qed.

Lemma notOlder_trans a b c : notOlder a b -> notOlder b c -> notOlder a c.
Proof. unfold notOlder. intros Hab Hbc. by eapply string_leb_trans. Qed.

(** With distinct timestamps there is one way to list results newest
    first. *)
Lemma sorted_newest_first_unique (l1 l2 : list SimulationResult.t) :
  NoDup (SimulationResult.timestamp <$> l1) ->
  l1 ≡ₚ l2 -> Sorted notOlder l1 -> Sorted notOlder l2 -> l1 = l2.
Proof.
  revert l2. induction l1 as [|x l1 IH]; intros l2 Hnd Hp H1 H2.
  - by apply Permutation_nil_l in Hp.
  - destruct l2 as [|y l2]; [by apply Permutation_nil_r in Hp|].
    assert (x = y) as <-.
    { apply Sorted_StronglySorted in H1, H2;
        [|intros ? ? ?; apply notOlder_trans..].
      apply StronglySorted_inv in H1 as [_ Hx], H2 as [_ Hy].
      rewrite List.Forall_forall in Hx, Hy.
      assert (y ∈ x :: l1) as Hyin by (rewrite Hp; by left).
      assert (x ∈ y :: l2) as Hxin by (rewrite <- Hp; by left).
      apply elem_of_cons in Hyin as [->|Hyin]; [done|].
      apply elem_of_cons in Hxin as [->|Hxin]; [done|].
      assert (SimulationResult.timestamp x = SimulationResult.timestamp y) as E.
      { apply String.leb_antisym.
        - apply (Hy x). by apply list_elem_of_In.
        - apply (Hx y). by apply list_elem_of_In. }
      exfalso. rewrite fmap_cons in Hnd. apply NoDup_cons in Hnd as [Hn _].
      apply Hn. rewrite E. by apply list_elem_of_fmap_2. }
    f_equal. apply IH.
    + rewrite fmap_cons in Hnd. by apply NoDup_cons in Hnd as [_ ?].
    + by apply Permutation_cons_inv in Hp.
    + by apply Sorted_inv in H1 as [? _].
    + by apply Sorted_inv in H2 as [? _].
Qed.

Lemma sortedNewestFirst_newestFirst docs answer :
  NoDup (SimulationResult.timestamp <$> docs) ->
  sortedNewestFirst docs answer -> answer = newestFirst docs.
Proof.
  intros Hnd [Hp Hs]. apply sorted_newest_first_unique.
  - by rewrite Hp.
  - by rewrite Hp, newestFirst_Permutation.
  - done.
  - apply newestFirst_Sorted.
Qed.

(** The results of the listing are the page cut from the sorted
    collection. *)
Lemma get_history_pageOf db size page :
  pageResults (get_history db (pageQuery size page))
  = pageOf size page (newestFirst (SimulationResults db)).
Proof.
  unfold get_history, pageQuery, pageOf.
  cbv [query_limit query_page default from_option id].
  by destruct (skip _ _).
Qed.

(** X13. When the stored results have pairwise distinct timestamps, pages 1
    to [total_pages] of the history, each cut from whatever newest-first
    order the store answers that page's query with, give every stored
    result exactly once: their concatenation is the collection sorted
    newest first, a permutation of the collection. *)
Theorem history_pages_cover db size (answers : Z -> list SimulationResult.t) :
  1 <= size ->
  NoDup (SimulationResult.timestamp <$> SimulationResults db) ->
  (forall page, sortedNewestFirst (SimulationResults db) (answers page)) ->
  let pages := (countDocuments (SimulationResults db) + size - 1) / size in
  concat ((fun page => pageOf size page (answers page)) <$> seqZ 1 pages)
  = newestFirst (SimulationResults db)
  /\ (forall page,
        pageOf size page (answers page)
        = pageResults (get_history db (pageQuery size page)))
  /\ newestFirst (SimulationResults db) ≡ₚ SimulationResults db.
Proof.
  intros Hs Hnd Hans. cbv zeta.
  assert (forall page, answers page = newestFirst (SimulationResults db)) as E
    by (intros page; by apply sortedNewestFirst_newestFirst).
  split; [|split; [|apply newestFirst_Permutation]].
  2:{ intros page. by rewrite E, get_history_pageOf. }
  set (l := newestFirst (SimulationResults db)) in *.
  set (pages := (_ + size - 1) / size).
  assert (0 <= pages /\ Z.of_nat (length l) <= pages * size) as [Hp Hl].
  { subst pages l. rewrite length_newestFirst. unfold countDocuments.
    pose proof (Z.div_mod (Z.of_nat (length (SimulationResults db)) + size - 1)
                  size ltac:(lia)).
    pose proof (Z.mod_pos_bound
                  (Z.of_nat (length (SimulationResults db)) + size - 1) size
                  ltac:(lia)).
    split; [apply Z.div_pos; lia|nia]. }
  etransitivity;
    [|apply (slices_cover l (Z.to_nat size) (Z.to_nat pages)); nia].
  unfold seqZ. rewrite <- list_fmap_compose. f_equal.
  apply list_fmap_ext. intros _ i _. simpl. rewrite E.
  fold l. rewrite <- (get_history_pageOf db).
  rewrite get_history_page by lia. cbv zeta. cbn [pageResults].
  do 2 f_equal. nia.
Qed.

Lemma history_pages_cover_witness :
  let db := mkStore [] [] [] [summarise initialTotals (request 1) "a";
                              summarise initialTotals (request 1) "c";
                              summarise initialTotals (request 1) "b"] in
  let answers := fun _ : Z => [summarise initialTotals (request 1) "c";
                               summarise initialTotals (request 1) "b";
                               summarise initialTotals (request 1) "a"] in
  let pages := (countDocuments (SimulationResults db) + 2 - 1) / 2 in
  concat ((fun page => pageOf 2 page (answers page)) <$> seqZ 1 pages)
  = newestFirst (SimulationResults db)
  /\ (forall page,
        pageOf 2 page (answers page)
        = pageResults (get_history db (pageQuery 2 page)))
  /\ newestFirst (SimulationResults db) ≡ₚ SimulationResults db.
Proof.
  apply (history_pages_cover
           (mkStore [] [] [] [summarise initialTotals (request 1) "a";
                              summarise initialTotals (request 1) "c";
                              summarise initialTotals (request 1) "b"]) 2
           (fun _ => [summarise initialTotals (request 1) "c";
                      summarise initialTotals (request 1) "b";
                      summarise initialTotals (request 1) "a"])).
  - lia.
  - simpl. repeat (apply NoDup_cons; split; [|]); try apply NoDup_nil_2.
    + intros [H|[H|H]%elem_of_cons]%elem_of_cons; try discriminate H.
      by apply not_elem_of_nil in H.
    + intros [H|H]%elem_of_cons; [discriminate H|].
      by apply not_elem_of_nil in H.
    + apply not_elem_of_nil.
  - intros _. split.
    + simpl. symmetry.
      apply (Permutation_cons_append
               [summarise initialTotals (request 1) "c";
                summarise initialTotals (request 1) "b"]).
    + repeat constructor.
Defined.

(** X14. Every page of the history is sorted newest first by timestamp and
    shows stored results only. *)
Theorem history_page_sorted db size page :
  1 <= size -> 1 <= page ->
  let results := pageResults (get_history db (pageQuery size page)) in
  Sorted notOlder results
  /\ forall r, r ∈ results -> r ∈ SimulationResults db.
Proof.
  intros Hs Hp. rewrite get_history_page by done. cbv zeta. cbn [pageResults].
  split.
  - apply Sorted_take, Sorted_drop, newestFirst_Sorted.
  - intros r Hr. rewrite <- newestFirst_Permutation.
    by apply (subseteq_drop (Z.to_nat ((page - 1) * size))),
      (subseteq_take (Z.to_nat size)).
Qed.

Lemma history_page_sorted_witness :
  let db := mkStore [] [] [] [summarise initialTotals (request 1) "a";
                              summarise initialTotals (request 1) "c";
                              summarise initialTotals (request 1) "b"] in
  let results := pageResults (get_history db (pageQuery 2 1)) in
  Sorted notOlder results
  /\ forall r, r ∈ results -> r ∈ SimulationResults db.
Proof.
  apply (history_page_sorted
           (mkStore [] [] [] [summarise initialTotals (request 1) "a";
                              summarise initialTotals (request 1) "c";
                              summarise initialTotals (request 1) "b"]) 2 1);
    lia.
Defined.





(** ** Creating routes and orders *)

Lemma findRoute_None db id :
  findRoute db id = None <-> id ∉ Route.route_id <$> Routes db.
Proof.
  unfold findRoute. destruct (list_find _ _) as [[i r]|] eqn:E; simpl.
  - split; [done|]. intros Hn. exfalso. apply Hn.
    apply list_find_Some in E as (Hi & <- & _).
    apply list_elem_of_fmap. exists r. split; [done|].
    apply list_elem_of_lookup. eauto.
  - split; [|done]. intros _ (r & -> & Hr)%list_elem_of_fmap.
    apply list_find_None in E. rewrite Forall_forall in E. by apply (E r).
Qed.

Lemma findRoute_Some db id route :
  findRoute db id = Some route ->
  Route.route_id route = id /\ route ∈ Routes db.
Proof.
  unfold findRoute. destruct (list_find _ _) as [[i r]|] eqn:E; [|done].
  intros [= <-]. apply list_find_Some in E as (Hi & Hid & _).
  split; [done|]. apply list_elem_of_lookup. eauto.
Qed.

Lemma findOrder_None db id :
  findOrder db id = None <-> id ∉ Order.order_id <$> Orders db.
Proof.
  unfold findOrder. destruct (list_find _ _) as [[i r]|] eqn:E; simpl.
  - split; [done|]. intros Hn. exfalso. apply Hn.
    apply list_find_Some in E as (Hi & <- & _).
    apply list_elem_of_fmap. exists r. split; [done|].
    apply list_elem_of_lookup. eauto.
  - split; [|done]. intros _ (r & -> & Hr)%list_elem_of_fmap.
    apply list_find_None in E. rewrite Forall_forall in E. by apply (E r).
Qed.

Lemma check_nil ok field message : check ok field message = [] <-> ok = true.
Proof. unfold check. by destruct ok. Qed.

Lemma validateRoute_nil body :
  validateRoute body = []
  <-> 1 <= RouteBody.route_id body
      /\ (1 # 10 <= RouteBody.distance body)%Q
      /\ is_Some (trafficLevelOf (RouteBody.traffic_level body))
      /\ 1 <= RouteBody.base_time body.
Proof.
  unfold validateRoute. rewrite !app_nil, !check_nil, !isInt_min.
  unfold isFloat, Js.le. rewrite Qle_bool_iff, bool_decide_eq_true. tauto.
Qed.

Lemma validateOrder_nil body :
  validateOrder body = []
  <-> 1 <= OrderBody.order_id body
      /\ 1 <= OrderBody.value_rs body
      /\ 1 <= OrderBody.route_id body
      /\ matches timePattern (OrderBody.delivery_time body) = true.
Proof.
  unfold validateOrder. rewrite !app_nil, !check_nil, !isInt_min. tauto.
Qed.

Lemma wellFormed_spec db :
  wellFormed db = true
  <-> forallb Driver.valid (Drivers db) = true
      /\ forallb Route.valid (Routes db) = true
      /\ forallb Order.valid (Orders db) = true
      /\ NoDup (Driver._id <$> Drivers db)
      /\ NoDup (Route.route_id <$> Routes db)
      /\ NoDup (Order.order_id <$> Orders db).
Proof.
  unfold wellFormed. rewrite !andb_true_iff, !bool_decide_eq_true. tauto.
Qed.

Lemma NoDup_snoc {A} (l : list A) x : NoDup l -> x ∉ l -> NoDup (l ++ [x]).
Proof.
  intros Hl Hx. apply NoDup_app. split; [done|]. split; [|apply NoDup_singleton].
  intros y Hy ->%list_elem_of_singleton. done.
Qed.

Lemma inject_Z_le_1 z : 1 <= z -> Js.le 1 (inject_Z z) = true.
Proof.
  intros H. unfold Js.le. apply Qle_bool_iff.
  change 1%Q with (inject_Z 1). by rewrite <- Zle_Qle.
Qed.

(** The three ways [POST /api/routes] ends for a body of the handler's
    types. *)
Lemma post_route_cases db body :
  (validateRoute body <> []
   /\ post_route db body = (ValidationFailed (validateRoute body), db))
  \/ (validateRoute body = []
      /\ (RouteBody.route_id body ∈ Route.route_id <$> Routes db)
      /\ post_route db body = (Refused "Route ID already exists", db))
  \/ (validateRoute body = []
      /\ (RouteBody.route_id body ∉ Route.route_id <$> Routes db)
      /\ exists level,
           trafficLevelOf (RouteBody.traffic_level body) = Some level
           /\ let route :=
                Route.mk (RouteBody.route_id body) (RouteBody.distance body)
                  level (inject_Z (RouteBody.base_time body)) in
              Route.valid route = true
              /\ post_route db body
                 = (Created route,
                    mkStore (Drivers db) (Routes db ++ [route])%list (Orders db)
                      (SimulationResults db))).
Proof.
  unfold post_route. case_bool_decide as Hv; cbn [negb]; [|by left].
  right. destruct (findRoute db (RouteBody.route_id body)) as [r|] eqn:Hf.
  { left. split; [done|]. split; [|done].
    destruct (decide (RouteBody.route_id body ∈ Route.route_id <$> Routes db))
      as [|Hn]; [done|].
    apply findRoute_None in Hn. congruence. }
  right. apply findRoute_None in Hf.
  pose proof Hv as (H1 & H2 & [level Hl] & H4)%validateRoute_nil. rewrite Hl.
  split; [done|]. split; [done|]. exists level. split; [done|]. cbv zeta.
  assert (Route.valid
            (Route.mk (RouteBody.route_id body) (RouteBody.distance body) level
               (inject_Z (RouteBody.base_time body))) = true) as Hvalid.
  { unfold Route.valid.
    cbn [Route.route_id Route.distance Route.base_time].
    assert ((1 <=? RouteBody.route_id body) = true) as -> by by apply Z.leb_le.
    assert (Js.le (1 # 10) (RouteBody.distance body) = true) as ->
      by by apply Qle_bool_iff.
    by rewrite inject_Z_le_1 by done. }
  split; [done|]. unfold saveRoute. rewrite Hvalid. cbn [negb].
  by rewrite bool_decide_eq_false_2 by done.
Qed.

(** X16. [POST /api/routes] answers 201 exactly when the body passes
    [validateRoute] and no stored route has its [route_id]; otherwise it
    answers 400 and the store is unchanged.  On 201 the answer is the new
    route, with the body's fields, and the store is the old one with that
    route added at the end of the routes. *)
Theorem post_route_created_iff db body :
  let reply := (post_route db body).1 in
  let db' := (post_route db body).2 in
  (replyStatus reply = 201
   <-> validateRoute body = []
       /\ (RouteBody.route_id body ∉ Route.route_id <$> Routes db))
  /\ (replyStatus reply = 201 \/ replyStatus reply = 400)
  /\ (replyStatus reply = 400 -> db' = db)
  /\ (replyStatus reply = 201 ->
      exists route,
        reply = Created route
        /\ Route.route_id route = RouteBody.route_id body
        /\ Route.distance route = RouteBody.distance body
        /\ Route.base_time route = inject_Z (RouteBody.base_time body)
        /\ trafficLevelOf (RouteBody.traffic_level body)
           = Some (Route.traffic_level route)
        /\ db' = mkStore (Drivers db) (Routes db ++ [route])%list (Orders db)
                   (SimulationResults db)).
Proof.
  cbv zeta.
  destruct (post_route_cases db body)
    as [[Hv ->]|[(Hv & Hin & ->)|(Hv & Hn & level & Hl & _ & ->)]];
    cbn [fst snd replyStatus].
  - split_and!; try done; auto. split; [done|]. by intros [? _].
  - split_and!; try done; auto. split; [done|]. by intros [_ ?].
  - split_and!; try done; auto. intros _. eexists. split; [reflexivity|]. done.
Qed.

Lemma forallb_snoc {A} (f : A -> bool) l x :
  forallb f (l ++ [x]) = forallb f l && f x.
Proof. rewrite forallb_app. simpl. by rewrite andb_true_r. Qed.

(** X17. Creating a route keeps the store well formed: every document
    still passes its schema and the ids stay distinct, whatever the body. *)
Theorem post_route_keeps_wellFormed db body :
  wellFormed db = true -> wellFormed ((post_route db body).2) = true.
Proof.
  intros Hwf.
  destruct (post_route_cases db body)
    as [[_ ->]|[(_ & _ & ->)|(_ & Hfresh & level & _ & Hvalid & ->)]];
    [done..|].
  cbv zeta in Hvalid. cbn [snd].
  apply wellFormed_spec in Hwf as (Hdv & Hrv & Hov & Hdn & Hrn & Hon).
  apply wellFormed_spec. cbn [Drivers Routes Orders].
  split_and!; try done.
  - by rewrite forallb_snoc, Hrv, Hvalid.
  - rewrite fmap_app. by apply NoDup_snoc.
Qed.

Lemma post_route_keeps_wellFormed_witness :
  wellFormed
    ((post_route (scenario [restedDriver] 500)
        (RouteBody.mk 9 (21 # 10) "High" 12)).2)
  = true.
Proof.
  apply (post_route_keeps_wellFormed (scenario [restedDriver] 500)
           (RouteBody.mk 9 (21 # 10) "High" 12)).
  vm_compute. reflexivity.
Defined.

(** The four ways [POST /api/orders] ends for a body of the handler's
    types. *)
Lemma post_order_cases db body :
  (validateOrder body <> []
   /\ post_order db body = (ValidationFailed (validateOrder body), db))
  \/ (validateOrder body = []
      /\ (OrderBody.order_id body ∈ Order.order_id <$> Orders db)
      /\ post_order db body = (Refused "Order ID already exists", db))
  \/ (validateOrder body = []
      /\ (OrderBody.order_id body ∉ Order.order_id <$> Orders db)
      /\ (OrderBody.route_id body ∉ Route.route_id <$> Routes db)
      /\ post_order db body = (Refused "Route does not exist", db))
  \/ (validateOrder body = []
      /\ (OrderBody.order_id body ∉ Order.order_id <$> Orders db)
      /\ (OrderBody.route_id body ∈ Route.route_id <$> Routes db)
      /\ let order :=
           Order.mk (OrderBody.order_id body)
             (inject_Z (OrderBody.value_rs body))
             (OrderBody.route_id body) (OrderBody.delivery_time body) in
         Order.valid order = true
         /\ post_order db body
            = (Created order,
               mkStore (Drivers db) (Routes db) (Orders db ++ [order])%list
                 (SimulationResults db))).
Proof.
  unfold post_order. case_bool_decide as Hv; cbn [negb]; [|by left].
  right. destruct (findOrder db (OrderBody.order_id body)) as [o|] eqn:Hfo.
  { left. split; [done|]. split; [|done].
    destruct (decide (OrderBody.order_id body ∈ Order.order_id <$> Orders db))
      as [|Hn]; [done|].
    apply findOrder_None in Hn. congruence. }
  right. apply findOrder_None in Hfo.
  destruct (findRoute db (OrderBody.route_id body)) as [r|] eqn:Hfr.
  2:{ left. apply findRoute_None in Hfr. done. }
  right.
  assert (OrderBody.route_id body ∈ Route.route_id <$> Routes db) as Hin.
  { apply findRoute_Some in Hfr as [<- Hr]. apply list_elem_of_fmap. eauto. }
  pose proof Hv as (H1 & H2 & H3 & H4)%validateOrder_nil.
  split; [done|]. split; [done|]. split; [done|]. cbv zeta.
  assert (Order.valid
            (Order.mk (OrderBody.order_id body)
               (inject_Z (OrderBody.value_rs body))
               (OrderBody.route_id body) (OrderBody.delivery_time body)) = true)
    as Hvalid.
  { unfold Order.valid.
    cbn [Order.order_id Order.value_rs Order.route_id Order.delivery_time].
    assert ((1 <=? OrderBody.order_id body) = true) as -> by by apply Z.leb_le.
    assert ((1 <=? OrderBody.route_id body) = true) as -> by by apply Z.leb_le.
    by rewrite inject_Z_le_1, H4 by done. }
  split; [done|]. unfold saveOrder. rewrite Hvalid. cbn [negb].
  by rewrite bool_decide_eq_false_2 by done.
Qed.

(** X18. [POST /api/orders] answers 201 exactly when the body passes
    [validateOrder], no stored order has its [order_id] and some stored
    route has its [route_id]; otherwise it answers 400 and the store is
    unchanged.  On 201 the answer is the new order, added at the end of the
    orders, and the engine can resolve its route. *)
Theorem post_order_created_iff db body :
  let reply := (post_order db body).1 in
  let db' := (post_order db body).2 in
  (replyStatus reply = 201
   <-> validateOrder body = []
       /\ (OrderBody.order_id body ∉ Order.order_id <$> Orders db)
       /\ (OrderBody.route_id body ∈ Route.route_id <$> Routes db))
  /\ (replyStatus reply = 201 \/ replyStatus reply = 400)
  /\ (replyStatus reply = 400 -> db' = db)
  /\ (replyStatus reply = 201 ->
      let order :=
        Order.mk (OrderBody.order_id body) (inject_Z (OrderBody.value_rs body))
          (OrderBody.route_id body) (OrderBody.delivery_time body) in
      reply = Created order
      /\ db' = mkStore (Drivers db) (Routes db) (Orders db ++ [order])%list
                 (SimulationResults db)
      /\ resolvable db' order).
Proof.
  cbv zeta.
  destruct (post_order_cases db body)
    as [[Hv ->]|[(Hv & Hin & ->)|[(Hv & Hn & Hr & ->)|(Hv & Hn & Hr & _ & ->)]]];
    cbn [fst snd replyStatus].
  - split_and!; try done; auto. split; [done|]. by intros [? _].
  - split_and!; try done; auto. split; [done|]. by intros (_ & ? & _).
  - split_and!; try done; auto. split; [done|]. by intros (_ & _ & ?).
  - split_and!; try done; auto.
Qed.

(** X19. Creating an order keeps the store well formed: every document
    still passes its schema and the ids stay distinct, whatever the body. *)
Theorem post_order_keeps_wellFormed db body :
  wellFormed db = true -> wellFormed ((post_order db body).2) = true.
Proof.
  intros Hwf.
  destruct (post_order_cases db body)
    as [[_ ->]|[(_ & _ & ->)|[(_ & _ & _ & ->)
                             |(_ & Hfresh & _ & Hvalid & ->)]]];
    [done..|].
  cbv zeta in Hvalid. cbn [snd].
  apply wellFormed_spec in Hwf as (Hdv & Hrv & Hov & Hdn & Hrn & Hon).
  apply wellFormed_spec. cbn [Drivers Routes Orders].
  split_and!; try done.
  - by rewrite forallb_snoc, Hov, Hvalid.
  - rewrite fmap_app. by apply NoDup_snoc.
Qed.

Lemma post_order_keeps_wellFormed_witness :
  wellFormed
    ((post_order (scenario [restedDriver] 500) (OrderBody.mk 7 1200 1 "9:15")).2)
  = true.
Proof.
  apply (post_order_keeps_wellFormed (scenario [restedDriver] 500)
           (OrderBody.mk 7 1200 1 "9:15")).
  vm_compute. reflexivity.
Defined.

(** The deliveries a returned run counts. *)
Lemma run_counts db g now params r :
  runDeliverySimulation db g now params = inr r ->
  (SimulationResult.on_time_deliveries r + SimulationResult.late_deliveries r)%nat
  = length (processedRoutes db).
Proof.
  intros (acc & g' & Hrun & ->)%run_inversion.
  apply processOrders_totals in Hrun as (Hc & _ & _).
  by rewrite processedRoutes_map in Hc.
Qed.

(** X20. An order the endpoint has created is never skipped by the engine:
    a run over the store after a 201 counts exactly one delivery more (on
    time or late) than a run over the store before. *)
Theorem created_order_is_simulated db body g now params :
  Js.unit_interval g ->
  1 <= SimulationResult.available_drivers params <= countDocuments (Drivers db) ->
  replyStatus ((post_order db body).1) = 201 ->
  exists r r',
    runDeliverySimulation db g now params = inr r
    /\ runDeliverySimulation ((post_order db body).2) g now params = inr r'
    /\ (SimulationResult.on_time_deliveries r'
        + SimulationResult.late_deliveries r')%nat
       = S (SimulationResult.on_time_deliveries r
            + SimulationResult.late_deliveries r).
Proof.
  intros Hg Hn Hs.
  destruct (post_order_cases db body)
    as [[_ E]|[(_ & _ & E)|[(_ & _ & _ & E)|(_ & _ & Hres & _ & E)]]];
    rewrite E in Hs |- *; try discriminate Hs.
  cbn [snd]. set (db' := mkStore _ _ _ _).
  assert (db' = mkStore (Drivers db) (Routes db)
                  (Orders db ++ [Order.mk (OrderBody.order_id body)
                                   (inject_Z (OrderBody.value_rs body))
                                   (OrderBody.route_id body)
                                   (OrderBody.delivery_time body)])%list
                  (SimulationResults db)) as Hdb by reflexivity.
  destruct (run_returns db g now params Hg Hn) as (acc & g1 & _ & Hr).
  destruct (run_returns db' g now params Hg) as (acc' & g2 & _ & Hr');
    [by rewrite Hdb|].
  eexists _, _. split; [exact Hr|]. split; [exact Hr'|].
  rewrite (run_counts _ _ _ _ _ Hr), (run_counts _ _ _ _ _ Hr').
  rewrite Hdb. unfold processedRoutes. cbn [Routes Orders Order.route_id].
  rewrite omap_app, length_app. cbn [omap list_omap Order.route_id].
  destruct (lookupRoute (Routes db) _) as [route|] eqn:El; [simpl; lia|].
  by apply lookupRoute_None in El.
Qed.

Lemma created_order_is_simulated_witness :
  exists r r',
    runDeliverySimulation (scenario [restedDriver] 500) (always 0) "t" (request 1)
    = inr r
    /\ runDeliverySimulation
         ((post_order (scenario [restedDriver] 500)
             (OrderBody.mk 7 1200 1 "9:15")).2)
         (always 0) "t" (request 1) = inr r'
    /\ (SimulationResult.on_time_deliveries r'
        + SimulationResult.late_deliveries r')%nat
       = S (SimulationResult.on_time_deliveries r
            + SimulationResult.late_deliveries r).
Proof.
  apply (created_order_is_simulated (scenario [restedDriver] 500)
           (OrderBody.mk 7 1200 1 "9:15") (always 0) "t" (request 1)).
  - constant_source.
  - vm_compute. split; discriminate.
  - vm_compute. reflexivity.
Defined.

(** ** The hour virtuals *)

Lemma hours_sum_bounds (l : list Q) acc :
  forallb (fun h => Js.le 0 h && Js.le h 24) l = true ->
  (acc <= foldl Qplus acc l)%Q
  /\ (foldl Qplus acc l <= acc + 24 * inject_Z (Z.of_nat (length l)))%Q.
Proof.
  revert acc. induction l as [|h l IH]; intros acc.
  - intros _. cbn [foldl length]. change (inject_Z (Z.of_nat 0)) with 0%Q.
    split; lra.
  - cbn [forallb foldl length]. intros [[H0 H24]%andb_true_iff Hl]%andb_true_iff.
    apply Qle_bool_iff in H0, H24.
    destruct (IH (acc + h)%Q Hl) as [Hlo Hhi].
    rewrite Nat2Z.inj_succ, <- Z.add_1_r, inject_Z_plus.
    change (inject_Z 1) with 1%Q. split; lra.
Qed.

(** X21. For a driver that passes the schema, [totalHoursLastWeek] lies
    between 0 and 168 and [averageHoursPerDay] between 0 and 24. *)
Theorem hours_virtuals_bounds d :
  Driver.valid d = true ->
  (0 <= Virtual.totalHoursLastWeek d)%Q
  /\ (Virtual.totalHoursLastWeek d <= 168)%Q
  /\ (0 <= Virtual.averageHoursPerDay d)%Q
  /\ (Virtual.averageHoursPerDay d <= 24)%Q.
Proof.
  unfold Driver.valid, Driver.valid_past_week_hours.
  intros [_ [Hlen Hall]%andb_true_iff]%andb_true_iff.
  apply Nat.eqb_eq in Hlen.
  destruct (hours_sum_bounds _ 0 Hall) as [Hlo Hhi]. rewrite Hlen in Hhi.
  change (inject_Z (Z.of_nat 7)) with 7%Q in Hhi.
  unfold Virtual.averageHoursPerDay, Virtual.totalHoursLastWeek in *.
  set (t := foldl Qplus 0%Q (Driver.past_week_hours d)) in *.
  assert (t / 7 == t * (1 # 7))%Q as -> by field.
  split_and!; lra.
Qed.

Lemma hours_virtuals_bounds_witness :
  (0 <= Virtual.totalHoursLastWeek tiredDriver)%Q
  /\ (Virtual.totalHoursLastWeek tiredDriver <= 168)%Q
  /\ (0 <= Virtual.averageHoursPerDay tiredDriver)%Q
  /\ (Virtual.averageHoursPerDay tiredDriver <= 24)%Q.
Proof. apply (hours_virtuals_bounds tiredDriver). vm_compute. reflexivity. Defined.

(** ** Reading and deleting a driver *)

Lemma findDriverById_None db id :
  findDriverById db id = None <-> id ∉ Driver._id <$> Drivers db.
Proof.
  unfold findDriverById. rewrite list_find_None, Forall_forall. split.
  - intros H (d & -> & Hd)%list_elem_of_fmap. by apply (H d).
  - intros H d Hd E. apply H. apply list_elem_of_fmap. eauto.
Qed.

(** In a list without duplicates, deleting a position removes its
    element. *)
Lemma NoDup_delete_not_elem_of {A} (l : list A) i x :
  NoDup l -> l !! i = Some x -> x ∉ delete i l.
Proof.
  intros Hnd Hi. rewrite delete_take_drop.
  rewrite <- (take_drop_middle l i x Hi) in Hnd.
  apply NoDup_app in Hnd as (_ & Hl & Hr). apply NoDup_cons in Hr as [Hr _].
  intros [H|H]%elem_of_app; [|done]. apply (Hl x H). by left.
Qed.

(** Deleting an element a search does not want leaves what it finds. *)
Lemma list_find_delete {A} (P : A -> Prop) `{forall x, Decision (P x)}
    (l : list A) i x :
  l !! i = Some x -> ~ P x ->
  snd <$> list_find P (delete i l) = snd <$> list_find P l.
Proof.
  revert i. induction l as [|y l IH]; intros [|i] Hi Hx; try done.
  - simpl in Hi. injection Hi as ->. cbn [delete list_delete list_find].
    rewrite decide_False by done. by destruct (list_find P l) as [[]|].
  - cbn [delete list_delete list_find]. destruct (decide (P y)); [done|].
    specialize (IH i Hi Hx).
    destruct (list_find P (delete i l)) as [[]|], (list_find P l) as [[]|];
      simpl in *; congruence.
Qed.

Lemma get_driver_find db id :
  get_driver db (ObjectId id)
  = match snd <$> findDriverById db id with
    | Some driver => DriverDoc driver
    | None => DriverMessage 404 "Driver not found"
    end.
Proof. unfold get_driver. by destruct (findDriverById db id) as [[]|]. Qed.

(** Deleting by a well-formed id. *)
Lemma delete_driver_ObjectId db id :
  NoDup (Driver._id <$> Drivers db) ->
  let reply := (delete_driver db (ObjectId id)).1 in
  let db' := (delete_driver db (ObjectId id)).2 in
  ((id ∈ Driver._id <$> Drivers db) ->
     reply = DriverMessage 200 "Driver deleted successfully"
     /\ length (Drivers db') = pred (length (Drivers db)))
  /\ ((id ∉ Driver._id <$> Drivers db) ->
      reply = DriverMessage 404 "Driver not found" /\ db' = db)
  /\ get_driver db' (ObjectId id) = DriverMessage 404 "Driver not found"
  /\ (forall id', id' <> id -> get_driver db' (ObjectId id') = get_driver db (ObjectId id'))
  /\ NoDup (Driver._id <$> Drivers db')
  /\ Routes db' = Routes db /\ Orders db' = Orders db
  /\ SimulationResults db' = SimulationResults db.
Proof.
  intros Hnd. cbv zeta. unfold delete_driver.
  destruct (findDriverById db id) as [[i d]|] eqn:Hf.
  - cbn [fst snd Drivers Routes Orders SimulationResults].
    pose proof Hf as (Hi & Hid & _)%list_find_Some.
    split_and!; try done.
    + intros _. split; [done|]. rewrite (length_delete _ i) by eauto. lia.
    + intros Hn. exfalso. apply Hn, list_elem_of_fmap. exists d.
      split; [done|]. apply list_elem_of_lookup. eauto.
    + unfold get_driver.
      match goal with
      | |- context [findDriverById ?s id] =>
          destruct (findDriverById s id) as [[j d']|] eqn:Hf'; [|done]
      end.
      exfalso. apply list_find_Some in Hf' as (Hj & Hid' & _).
      cbn [Drivers] in Hj.
      apply (NoDup_delete_not_elem_of (Driver._id <$> Drivers db) i id Hnd).
      * by rewrite list_lookup_fmap, Hi; simpl; rewrite Hid.
      * rewrite <- list_fmap_delete. apply list_elem_of_fmap. exists d'.
        split; [by rewrite Hid'|]. apply list_elem_of_lookup. eauto.
    + intros id' Hne. rewrite !get_driver_find. unfold findDriverById.
      cbn [Drivers].
      rewrite (list_find_delete (fun d0 => Driver._id d0 = id') _ i d Hi);
        [done|congruence].
    + rewrite list_fmap_delete. eapply sublist_NoDup; [done|apply sublist_delete].
  - cbn [fst snd]. pose proof Hf as Hn%findDriverById_None.
    split_and!; try done.
    unfold get_driver. by rewrite Hf.
Qed.

(** X22. [DELETE /api/drivers/:id] over drivers with distinct ids.  An id
    that is no ObjectId is answered with 500, by the delete as by a read,
    and the store is unchanged.  An ObjectId that is stored is answered
    with the success message and one driver fewer, one that is not stored
    with 404 and the store unchanged; afterwards [GET /api/drivers/:id]
    answers 404 for that id and as before for every other ObjectId.  In
    every case the ids are still distinct, and routes, orders and history
    are untouched. *)
Theorem delete_driver_spec db param :
  NoDup (Driver._id <$> Drivers db) ->
  let reply := (delete_driver db param).1 in
  let db' := (delete_driver db param).2 in
  match param with
  | NotAnObjectId =>
      reply = DriverMessage 500 "Server error while deleting driver"
      /\ db' = db
      /\ get_driver db' param
         = DriverMessage 500 "Server error while fetching driver"
  | ObjectId id =>
      ((id ∈ Driver._id <$> Drivers db) ->
         reply = DriverMessage 200 "Driver deleted successfully"
         /\ length (Drivers db') = pred (length (Drivers db)))
      /\ ((id ∉ Driver._id <$> Drivers db) ->
          reply = DriverMessage 404 "Driver not found" /\ db' = db)
      /\ get_driver db' param = DriverMessage 404 "Driver not found"
      /\ (forall id', id' <> id ->
            get_driver db' (ObjectId id') = get_driver db (ObjectId id'))
  end
  /\ NoDup (Driver._id <$> Drivers db')
  /\ Routes db' = Routes db /\ Orders db' = Orders db
  /\ SimulationResults db' = SimulationResults db.
Proof.
  intros Hnd. cbv zeta. destruct param as [|id]; [by cbn|].
  destruct (delete_driver_ObjectId db id Hnd)
    as (H1 & H2 & H3 & H4 & H5 & H6 & H7 & H8).
  by split_and!.
Qed.

Lemma delete_driver_spec_witness :
  let db := scenario [restedDriver; tiredDriver] 500 in
  let reply := (delete_driver db (ObjectId 1)).1 in
  let db' := (delete_driver db (ObjectId 1)).2 in
  (((1%N ∈ Driver._id <$> Drivers db) ->
      reply = DriverMessage 200 "Driver deleted successfully"
      /\ length (Drivers db') = pred (length (Drivers db)))
   /\ ((1%N ∉ Driver._id <$> Drivers db) ->
       reply = DriverMessage 404 "Driver not found" /\ db' = db)
   /\ get_driver db' (ObjectId 1) = DriverMessage 404 "Driver not found"
   /\ (forall id', id' <> 1%N ->
         get_driver db' (ObjectId id') = get_driver db (ObjectId id')))
  /\ NoDup (Driver._id <$> Drivers db')
  /\ Routes db' = Routes db /\ Orders db' = Orders db
  /\ SimulationResults db' = SimulationResults db.
Proof.
  apply (delete_driver_spec (scenario [restedDriver; tiredDriver] 500)
           (ObjectId 1)).
  simpl. apply NoDup_cons. split; [|apply NoDup_singleton].
  intros H%list_elem_of_singleton. discriminate H.
Defined.

(** ** The page's copy of the drivers *)

Lemma filter_Forall_id {A} (P : A -> Prop) `{forall x, Decision (P x)} (l : list A) :
  Forall P l -> filter P l = l.
Proof.
  induction 1 as [|x l Hx _ IH]; [done|]. by rewrite filter_cons_True, IH.
Qed.

(** Filtering out the key of one position of a list with distinct keys
    deletes that position. *)
Lemma filter_delete_key {A K} `{EqDecision K} (key : A -> K) (l : list A) i x :
  NoDup (key <$> l) -> l !! i = Some x ->
  filter (fun y => key y <> key x) l = delete i l.
Proof.
  intros Hnd Hi. rewrite delete_take_drop.
  rewrite <- (take_drop_middle l i x Hi) at 1.
  rewrite <- (take_drop_middle l i x Hi), fmap_app, fmap_cons in Hnd.
  apply NoDup_app in Hnd as (_ & Hl & Hr). apply NoDup_cons in Hr as [Hr _].
  rewrite filter_app, filter_cons_False by (intros H; by apply H).
  f_equal; apply filter_Forall_id, Forall_forall; intros y Hy E.
  - apply (Hl (key x)); [|by left]. rewrite <- E. apply list_elem_of_fmap. eauto.
  - apply Hr. rewrite <- E. apply list_elem_of_fmap. eauto.
Qed.

(** X23. The page's copy stays in step with the store: if the page holds
    the stored drivers in any order and the delete request succeeds, the
    list [deleteDriver] sets holds exactly the drivers the store still
    has. *)
Theorem page_in_sync_after_delete db page id :
  NoDup (Driver._id <$> Drivers db) ->
  page ≡ₚ Drivers db ->
  (delete_driver db (ObjectId id)).1
  = DriverMessage 200 "Driver deleted successfully" ->
  deleteDriver page id ≡ₚ Drivers ((delete_driver db (ObjectId id)).2).
Proof.
  intros Hnd Hpage. unfold delete_driver, deleteDriver.
  destruct (findDriverById db id) as [[i d]|] eqn:Hf; [|done].
  intros _. cbn [snd Drivers]. rewrite Hpage.
  apply list_find_Some in Hf as (Hi & <- & _).
  by rewrite (filter_delete_key Driver._id (Drivers db) i d Hnd Hi).
Qed.

Lemma page_in_sync_after_delete_witness :
  deleteDriver [tiredDriver; restedDriver] 1%N
  ≡ₚ Drivers ((delete_driver (scenario [restedDriver; tiredDriver] 500)
                 (ObjectId 1)).2).
Proof.
  apply (page_in_sync_after_delete
           (scenario [restedDriver; tiredDriver] 500)
           [tiredDriver; restedDriver] 1%N).
  - simpl. apply NoDup_cons. split; [|apply NoDup_singleton].
    intros H%list_elem_of_singleton. discriminate H.
  - simpl. apply Permutation_swap.
  - reflexivity.
Defined.
